(** * Cross: the Hubzilla credential handler ([auth_handlers/hubzilla.py])

    A shallow embedding of the three remote checks ([basic_check],
    [check_nodeinfo], [check_usercred]) and of the orchestrator [main],
    together with the library calls they rest on: [re.sub] for the three
    patterns of the file, [str.encode], [base64.b64encode], [str(bytes,
    "utf-8")], [input], [getpass.getpass], [print], [exit] and
    [requests.request]. *)

From Stdlib Require Import List NArith ZArith Bool String Ascii Lia.
From Stdlib.Strings Require Import Byte.
Import ListNotations.

Set Warnings "-register-all".

(* ================================================================== *)
(** * Python values *)

(** A Python [str] is a sequence of Unicode code points.  Every code point
    of a real [str] is below [0x110000]; lone surrogates ([0xD800] to
    [0xDFFF]) can occur (for instance through the [surrogateescape] handler
    of the standard streams). *)
Definition codepoint := N.
Definition str := list codepoint.

(** Python [bytes]. *)
Definition bytes := list byte.

(** The ASCII literals of the source, as [str]. *)
Fixpoint str_lit (s : string) : str :=
  match s with
  | EmptyString => []
  | String a s' => N_of_ascii a :: str_lit s'
  end.

(** One ASCII character as a code point. *)
Definition chr (a : ascii) : codepoint := N_of_ascii a.

Definition LF : codepoint := 10%N.

Fixpoint str_eqb (a b : str) : bool :=
  match a, b with
  | [], [] => true
  | x :: a', y :: b' => N.eqb x y && str_eqb a' b'
  | _, _ => false
  end.

(** What [json.loads] can produce.  A [dict] has one entry per key; it is
    kept as the list of its items and read from the front. *)
Inductive json : Type :=
| JNull
| JBool (b : bool)
| JInt (n : Z)
| JFloat (mantissa exponent : Z)
| JStr (s : str)
| JList (items : list json)
| JDict (items : list (str * json)).

(** The exceptions that can travel through this file. *)
Inductive request_error : Type :=
| ConnectionError
| Timeout
| TooManyRedirects
| InvalidURL.

Inductive exn : Type :=
| SystemExit (code : Z)
| EOFError
| KeyError (key : str)
| TypeError
| JSONDecodeError
| UnicodeEncodeError
| UnicodeDecodeError
| RequestException (e : request_error).

(* ================================================================== *)
(** * The HTTP client, the terminal and the run *)

Inductive http_method : Type := GET | POST.

(** The arguments of [requests.request]; an argument left out in the call
    is [None] for [data] and empty for [headers] and [params]. *)
Record request : Type := Request {
  rq_method : http_method;
  rq_url : str;
  rq_data : option str;
  rq_headers : list (str * str);
  rq_params : list (str * str)
}.

(** What the file reads of a [requests.Response]: the status code, and what
    [.json()] gives, [None] when the body does not decode as JSON. *)
Record response : Type := Response {
  status_code : Z;
  json_body : option json
}.

Inductive reply : Type :=
| Answers (r : response)
| Fails (e : request_error).

(** What a run leaves behind, in order. *)
Inductive event : Type :=
| EvStdout (text : str)
| EvTty (text : str)
| EvHttp (rq : request).

(** The surroundings of one run: the characters still to be read from
    standard input and from the terminal that [getpass] opens, the remote
    side (it sees all that happened before a request), and the events so
    far. *)
Record world : Type := World {
  stdin : str;
  tty : str;
  server : list event -> request -> reply;
  trace : list event
}.

Inductive outcome (A : Type) : Type :=
| Ok (a : A)
| Exc (e : exn).
Arguments Ok {A} a.
Arguments Exc {A} e.

(** Statements run in a world and either yield a value or raise. *)
Definition M (A : Type) : Type := world -> outcome A * world.

Definition ret {A} (a : A) : M A := fun w => (Ok a, w).
Definition raise {A} (e : exn) : M A := fun w => (Exc e, w).
Definition bind {A B} (m : M A) (k : A -> M B) : M B :=
  fun w => match m w with
           | (Ok a, w') => k a w'
           | (Exc e, w') => (Exc e, w')
           end.

Declare Scope py_scope.
Delimit Scope py_scope with py.
Notation "x <- m ;; k" := (bind m (fun x => k))
  (at level 61, m at next level, right associativity) : py_scope.
Notation "m ;;; k" := (bind m (fun _ => k))
  (at level 61, right associativity) : py_scope.
Open Scope py_scope.

(** The world with one more event. *)
Definition logged (e : event) (w : world) : world :=
  World (stdin w) (tty w) (server w) (trace w ++ [e]).

Definition log (e : event) : M unit := fun w => (Ok tt, logged e w).

(** [print(text, end=e)]. *)
Definition print (text e : str) : M unit := log (EvStdout (text ++ e)).

(** One line off the front of a stream: up to the first line feed, which is
    consumed and not returned; [None] at end of file. *)
Fixpoint until_LF (s : str) : str * str :=
  match s with
  | [] => ([], [])
  | c :: s' => if N.eqb c LF then ([], s')
               else let (l, r) := until_LF s' in (c :: l, r)
  end.

Definition readline (s : str) : option (str * str) :=
  match s with
  | [] => None
  | _ => Some (until_LF s)
  end.

(** [input(prompt)]. *)
Definition input (prompt : str) : M str :=
  log (EvStdout prompt) ;;;
  fun w => match readline (stdin w) with
           | None => (Exc EOFError, w)
           | Some (l, rest) => (Ok l, World rest (tty w) (server w) (trace w))
           end.

(** [getpass.getpass(prompt=...)] where the controlling terminal opens:
    prompt and line on the terminal, nothing echoed, a line feed written
    once the line is in.  Where no controlling terminal opens the library
    reads the line from standard input and writes the prompt, and a warning
    when the echo stays on, to standard error; that path is outside this
    definition.  On either path nothing goes to standard output and
    nothing is sent. *)
Definition getpass (prompt : str) : M str :=
  log (EvTty prompt) ;;;
  l <- (fun w => match readline (tty w) with
                 | None => (Exc EOFError, w)
                 | Some (l, rest) =>
                     (Ok l, World (stdin w) rest (server w) (trace w))
                 end) ;;
  log (EvTty [LF]) ;;;
  ret l.

(** [exit(code)]. *)
Definition exit {A} (code : Z) : M A := raise (SystemExit code).

(** [requests.request(method, url, data=..., headers=..., params=...)]: the
    request goes out, then the response comes back or the client raises. *)
Definition requests_request (rq : request) : M response :=
  fun w =>
    match server w (trace w) rq with
    | Answers r => (Ok r, logged (EvHttp rq) w)
    | Fails e => (Exc (RequestException e), logged (EvHttp rq) w)
    end.

(** The status the interpreter leaves with. *)
Definition exit_status {A} (o : outcome A) : Z :=
  match o with
  | Ok _ => 0
  | Exc (SystemExit code) => code
  | Exc _ => 1
  end.

(* ================================================================== *)
(** * [basic_check] *)

Definition basic_check (instance : str) : M bool :=
  let host_meta_url :=
    str_lit "https://" ++ instance ++ str_lit "/.well-known/host-meta" in
  host_meta <- requests_request (Request GET host_meta_url None [] []) ;;
  if Z.eqb (status_code host_meta) 200 then ret true else ret false.

(* ================================================================== *)
(** * [check_nodeinfo] *)

Definition lift {A} (o : outcome A) : M A := fun w => (o, w).

(** [Response.json()]. *)
Definition response_json (r : response) : outcome json :=
  match json_body r with
  | Some j => Ok j
  | None => Exc JSONDecodeError
  end.

Fixpoint dict_get (items : list (str * json)) (key : str) : option json :=
  match items with
  | [] => None
  | (k, v) :: items' => if str_eqb k key then Some v else dict_get items' key
  end.

(** [v[key]] for a [str] key: a [dict] is looked up and raises [KeyError]
    on a missing key; a list or a string takes no [str] index and the other
    values take no index at all, [TypeError] in both cases. *)
Definition getitem (v : json) (key : str) : outcome json :=
  match v with
  | JDict items =>
      match dict_get items key with
      | Some x => Ok x
      | None => Exc (KeyError key)
      end
  | _ => Exc TypeError
  end.

(** [v == s] for a [str] [s]: only an equal [str] is equal to it. *)
Definition json_eq_str (v : json) (s : str) : bool :=
  match v with
  | JStr t => str_eqb t s
  | _ => false
  end.

(** [v in (s1, s2, ...)]. *)
Definition in_tuple (v : json) (candidates : list str) : bool :=
  existsb (json_eq_str v) candidates.

Definition check_nodeinfo (instance : str) : M bool :=
  let nodeinfo_url := str_lit "https://" ++ instance ++ str_lit "/nodeinfo/2.0" in
  nodeinfo_req <- requests_request (Request GET nodeinfo_url None [] []) ;;
  if Z.eqb (status_code nodeinfo_req) 404 then ret true
  else
    nodeinfo <- lift (response_json nodeinfo_req) ;;
    software <- lift (getitem nodeinfo (str_lit "software")) ;;
    name <- lift (getitem software (str_lit "name")) ;;
    if in_tuple name [str_lit "hubzilla"; str_lit "redmatrix"]
    then ret true
    else ret false.

(* ================================================================== *)
(** * UTF-8 and Base64 *)

Definition byte_of_N (n : N) : byte :=
  match Byte.of_N n with
  | Some b => b
  | None => x00
  end.

(** The UTF-8 form of one code point; none for a surrogate (nor above the
    last code point, which no [str] holds). *)
Definition utf8_encode_cp (c : codepoint) : option bytes :=
  if (c <? 0x80)%N then Some [byte_of_N c]
  else if (c <? 0x800)%N then
    Some [byte_of_N (N.lor 0xC0 (N.shiftr c 6));
          byte_of_N (N.lor 0x80 (N.land c 0x3F))]
  else if (c <? 0x10000)%N then
    if ((0xD800 <=? c) && (c <? 0xE000))%N then None
    else
      Some [byte_of_N (N.lor 0xE0 (N.shiftr c 12));
            byte_of_N (N.lor 0x80 (N.land (N.shiftr c 6) 0x3F));
            byte_of_N (N.lor 0x80 (N.land c 0x3F))]
  else if (c <? 0x110000)%N then
    Some [byte_of_N (N.lor 0xF0 (N.shiftr c 18));
          byte_of_N (N.lor 0x80 (N.land (N.shiftr c 12) 0x3F));
          byte_of_N (N.lor 0x80 (N.land (N.shiftr c 6) 0x3F));
          byte_of_N (N.lor 0x80 (N.land c 0x3F))]
  else None.

Fixpoint utf8_encode (s : str) : option bytes :=
  match s with
  | [] => Some []
  | c :: s' =>
      match utf8_encode_cp c, utf8_encode s' with
      | Some b, Some bs => Some (b ++ bs)
      | _, _ => None
      end
  end.

(** [s.encode("utf-8")]. *)
Definition str_encode (s : str) : outcome bytes :=
  match utf8_encode s with
  | Some bs => Ok bs
  | None => Exc UnicodeEncodeError
  end.

Definition is_cont (n : N) : bool := ((0x80 <=? n) && (n <? 0xC0))%N.
Definition low6 (n : N) : N := N.land n 0x3F.

(** Strict UTF-8 decoding: no stray or missing continuation byte, no
    overlong form, no surrogate, nothing above [0x10FFFF]. *)
Fixpoint utf8_decode (bs : bytes) : option str :=
  match bs with
  | [] => Some []
  | b0 :: r0 =>
      let n0 := Byte.to_N b0 in
      if (n0 <? 0x80)%N then option_map (cons n0) (utf8_decode r0)
      else if (n0 <? 0xE0)%N then
        match r0 with
        | b1 :: r1 =>
            let n1 := Byte.to_N b1 in
            if ((0xC2 <=? n0) && is_cont n1)%N
            then option_map
                   (cons (N.lor (N.shiftl (N.land n0 0x1F) 6) (low6 n1)))
                   (utf8_decode r1)
            else None
        | _ => None
        end
      else if (n0 <? 0xF0)%N then
        match r0 with
        | b1 :: b2 :: r2 =>
            let n1 := Byte.to_N b1 in
            let n2 := Byte.to_N b2 in
            let c := N.lor (N.shiftl (N.land n0 0x0F) 12)
                       (N.lor (N.shiftl (low6 n1) 6) (low6 n2)) in
            if (is_cont n1 && is_cont n2 && (0x800 <=? c)
                && negb ((0xD800 <=? c) && (c <? 0xE000)))%N
            then option_map (cons c) (utf8_decode r2)
            else None
        | _ => None
        end
      else
        match r0 with
        | b1 :: b2 :: b3 :: r3 =>
            let n1 := Byte.to_N b1 in
            let n2 := Byte.to_N b2 in
            let n3 := Byte.to_N b3 in
            let c := N.lor (N.shiftl (N.land n0 0x07) 18)
                       (N.lor (N.shiftl (low6 n1) 12)
                          (N.lor (N.shiftl (low6 n2) 6) (low6 n3))) in
            if ((n0 <? 0xF8) && is_cont n1 && is_cont n2 && is_cont n3
                && (0x10000 <=? c) && (c <? 0x110000))%N
            then option_map (cons c) (utf8_decode r3)
            else None
        | _ => None
        end
  end.

(** [str(b, "utf-8")]. *)
Definition str_of_bytes (b : bytes) : outcome str :=
  match utf8_decode b with
  | Some s => Ok s
  | None => Exc UnicodeDecodeError
  end.

Definition b64_alphabet : bytes :=
  list_byte_of_string
    "ABCDEFGHIJKLMNOPQRSTUVWXYZabcdefghijklmnopqrstuvwxyz0123456789+/".

Definition b64_pad : byte := "=".

(** The character of a six-bit group. *)
Definition b64_char (n : N) : byte := nth (N.to_nat n) b64_alphabet b64_pad.

(** [base64.b64encode]: three bytes make four characters; a last group of
    one or two bytes is filled with zero bits and padded with [=]. *)
Fixpoint b64encode (bs : bytes) : bytes :=
  match bs with
  | [] => []
  | [a] =>
      let n := Byte.to_N a in
      [b64_char (N.shiftr n 2); b64_char (N.shiftl (N.land n 3) 4);
       b64_pad; b64_pad]
  | [a; b] =>
      let n := N.lor (N.shiftl (Byte.to_N a) 8) (Byte.to_N b) in
      [b64_char (N.shiftr n 10); b64_char (N.land (N.shiftr n 4) 63);
       b64_char (N.shiftl (N.land n 15) 2); b64_pad]
  | a :: b :: c :: rest =>
      let n := N.lor (N.shiftl (Byte.to_N a) 16)
                 (N.lor (N.shiftl (Byte.to_N b) 8) (Byte.to_N c)) in
      b64_char (N.shiftr n 18) :: b64_char (N.land (N.shiftr n 12) 63)
      :: b64_char (N.land (N.shiftr n 6) 63) :: b64_char (N.land n 63)
      :: b64encode rest
  end.

(* ================================================================== *)
(** * [check_usercred] *)

Definition check_usercred (instance channel_name password : str) : M bool :=
  let usercheck_creds := channel_name ++ str_lit ":" ++ password in
  encoded <- lift (str_encode usercheck_creds) ;;
  usercheck_cred64 <- lift (str_of_bytes (b64encode encoded)) ;;
  let usercheck_header :=
    [(str_lit "authorization", str_lit "Basic " ++ usercheck_cred64)] in
  let usercheck_url :=
    str_lit "https://" ++ instance ++ str_lit "/api/z/1.0/channel/export/basic" in
  let usercheck_params :=
    [(str_lit "sections", str_lit "channel"); (str_lit "posts", str_lit "0")] in
  usercheck <- requests_request
                 (Request POST usercheck_url (Some (str_lit ""))
                    usercheck_header usercheck_params) ;;
  if Z.eqb (status_code usercheck) 200 then ret true else ret false.

(* ================================================================== *)
(** * [re.sub] on the patterns of this file *)

(** The fragment of the pattern language the file uses: literal characters
    and [.], each once, optional ([?]) or repeated ([*], greedy), and the
    anchors [^] and [$], with no flags given. *)
Inductive atom : Type :=
| Lit (c : codepoint)
| AnyChar.

Inductive item : Type :=
| One (a : atom)
| Opt (a : atom)
| Star (a : atom)
| Bol
| Eol.

Definition regex := list item.

(** [.] takes any character but a line feed. *)
Definition atom_matches (a : atom) (c : codepoint) : bool :=
  match a with
  | Lit d => N.eqb c d
  | AnyChar => negb (N.eqb c LF)
  end.

(** [$] holds at the end of the string and before a line feed that ends
    it. *)
Definition at_eol (s : str) : bool :=
  match s with
  | [] => true
  | [c] => N.eqb c LF
  | _ => false
  end.

(** A greedy run of [a], giving characters back one at a time until the
    rest of the pattern, [k], matches. *)
Fixpoint match_star (a : atom) (k : bool -> str -> option nat)
    (at_start : bool) (s : str) : option nat :=
  match s with
  | c :: s' =>
      if atom_matches a c then
        match match_star a k false s' with
        | Some n => Some (S n)
        | None => k at_start s
        end
      else k at_start s
  | [] => k at_start s
  end.

(** The backtracking match of a pattern at the front of [s]: the number of
    characters of the first match in the matcher's order of preference.
    [at_start] says whether [s] is the whole subject, which is where [^]
    holds. *)
Fixpoint match_here (re : regex) (at_start : bool) (s : str) : option nat :=
  match re with
  | [] => Some 0
  | Bol :: re' => if at_start then match_here re' at_start s else None
  | Eol :: re' => if at_eol s then match_here re' at_start s else None
  | One a :: re' =>
      match s with
      | c :: s' =>
          if atom_matches a c then option_map S (match_here re' false s')
          else None
      | [] => None
      end
  | Opt a :: re' =>
      match s with
      | c :: s' =>
          if atom_matches a c then
            match match_here re' false s' with
            | Some n => Some (S n)
            | None => match_here re' at_start s
            end
          else match_here re' at_start s
      | [] => match_here re' at_start s
      end
  | Star a :: re' => match_star a (match_here re') at_start s
  end.

(** The scan of [re.sub]: at each position the pattern is tried; a match
    is replaced and the scan goes on behind it ([skip] counts the matched
    characters still to be passed over), anything else is copied.  After an
    empty match the character at hand is copied. *)
Fixpoint sub_scan (re : regex) (repl : str) (at_start : bool) (skip : nat)
    (s : str) : str :=
  match skip with
  | S k =>
      match s with
      | [] => []
      | _ :: s' => sub_scan re repl false k s'
      end
  | O =>
      match match_here re at_start s with
      | Some (S n) =>
          repl ++ match s with
                  | [] => []
                  | _ :: s' => sub_scan re repl false n s'
                  end
      | Some O =>
          repl ++ match s with
                  | [] => []
                  | c :: s' => c :: sub_scan re repl false 0 s'
                  end
      | None =>
          match s with
          | [] => []
          | c :: s' => c :: sub_scan re repl false 0 s'
          end
      end
  end.

(** [re.sub(pattern, repl, string)], for a [repl] without escapes. *)
Definition re_sub (pattern : regex) (repl : str) (string : str) : str :=
  sub_scan pattern repl true 0 string.

(** Reading a pattern of the fragment; [None] outside of it. *)
Definition is_meta (c : codepoint) : bool :=
  existsb (N.eqb c) (str_lit "\|()[]{}+*?").

Definition read_atom (c : codepoint) : atom :=
  if N.eqb c (chr ".") then AnyChar else Lit c.

Fixpoint re_compile (p : str) : option regex :=
  match p with
  | [] => Some []
  | c :: p' =>
      if N.eqb c (chr "^") then option_map (cons Bol) (re_compile p')
      else if N.eqb c (chr "$") then option_map (cons Eol) (re_compile p')
      else if is_meta c then None
      else
        match p' with
        | q :: p'' =>
            if N.eqb q (chr "?") then
              option_map (cons (Opt (read_atom c))) (re_compile p'')
            else if N.eqb q (chr "*") then
              option_map (cons (Star (read_atom c))) (re_compile p'')
            else option_map (cons (One (read_atom c))) (re_compile p')
        | [] => Some [One (read_atom c)]
        end
  end.

Definition lits (s : string) : regex := map (fun c => One (Lit c)) (str_lit s).

(** ["^https?://"] *)
Definition re_scheme : regex :=
  Bol :: lits "http" ++ Opt (Lit (chr "s")) :: lits "://".

(** ["/.*$"] *)
Definition re_path : regex := lits "/" ++ [Star AnyChar; Eol].

(** ["^@"] *)
Definition re_at : regex := Bol :: lits "@".

(* ================================================================== *)
(** * [main] *)

(** [x is False]. *)
Definition is_False (x : bool) : bool := negb x.

Definition when (c : bool) (body : M unit) : M unit :=
  if c then body else ret tt.

(** [main] calls the three checks through their module-level names; they
    are arguments here, and [main] below is the instance at the three
    functions of the file.  The value given back is the local
    [account_name] at the end of the body. *)
Section Orchestrator.

Variable basic_check' : str -> M bool.
Variable check_nodeinfo' : str -> M bool.
Variable check_usercred' : str -> str -> str -> M bool.

Definition main_with : M str :=
  let account_name := str_lit "" in
  let account_type := 1%Z in
  let instance := str_lit "" in
  let channel_name := str_lit "" in
  let password := str_lit "" in
  print (str_lit "Cross - a Mastodon/Hubzilla cross-poster") [LF] ;;;
  print (str_lit "       Holly Lotor Montalvo  2020       ") [LF] ;;;
  print (str_lit "----------------------------------------") [LF; LF] ;;;
  instance <- input (str_lit
    "Please enter your instance's domain (i.e. example.com): ") ;;
  let instance := re_sub re_scheme (str_lit "") instance in
  let instance := re_sub re_path (str_lit "") instance in
  ok <- basic_check' instance ;;
  when (is_False ok)
    (print (str_lit "Instance returned error upon validation. Something's amiss with the instance. Bailing...") [LF] ;;;
     exit 1) ;;;
  ok <- check_nodeinfo' instance ;;
  when (is_False ok)
    (print (str_lit "Nodeinfo claims this isn't a Hubzilla instance. Bailing...") [LF] ;;;
     exit 1) ;;;
  channel_name <- input (str_lit
    "Please enter your channel name (this is what goes before @"
    ++ instance ++ str_lit "): ") ;;
  let channel_name := re_sub re_at (str_lit "") channel_name in
  pword <- getpass (str_lit "Enter your password: ") ;;
  ok <- check_usercred' instance channel_name pword ;;
  when (is_False ok)
    (print (str_lit "Authorization attempt failed. Bailing...") [LF] ;;;
     exit 1) ;;;
  let account_name :=
    str_lit "@" ++ channel_name ++ str_lit "@" ++ instance in
  ret account_name.

End Orchestrator.

Definition main : M str := main_with basic_check check_nodeinfo check_usercred.

(** The process: [main()] under [if __name__ == '__main__'], and the status
    it ends with. *)
Definition run (w : world) : Z * world :=
  let (o, w') := main w in (exit_status o, w').

(* ================================================================== *)
(** * The sanitization of the entered strings *)

(** Lines 112 and 113 of [main], and line 134. *)
Definition sanitize_instance (entered : str) : str :=
  re_sub re_path (str_lit "") (re_sub re_scheme (str_lit "") entered).

Definition sanitize_channel (entered : str) : str :=
  re_sub re_at (str_lit "") entered.

(** What the specification says of them, in its own words: a leading
    [http://] or [https://] goes, then everything from the first [/] on;
    one leading [@] goes. *)
Fixpoint starts_with (p s : str) : bool :=
  match p, s with
  | [], _ => true
  | x :: p', y :: s' => N.eqb y x && starts_with p' s'
  | _ :: _, [] => false
  end.

Definition spec_strip_scheme (s : str) : str :=
  if starts_with (str_lit "https://") s then skipn 8 s
  else if starts_with (str_lit "http://") s then skipn 7 s
  else s.

Fixpoint spec_cut_path (s : str) : str :=
  match s with
  | [] => []
  | c :: s' => if N.eqb c (chr "/") then [] else c :: spec_cut_path s'
  end.

Definition spec_strip_at (s : str) : str :=
  match s with
  | c :: s' => if N.eqb c (chr "@") then s' else s
  | [] => []
  end.

(* ================================================================== *)
(** * The text of the credentials, read back *)

Definition is_ascii (b : byte) : Prop := (Byte.to_N b < 0x80)%N.

(** The Base64 text of some bytes, as a [str]. *)
Definition b64_text (bs : bytes) : str := map Byte.to_N (b64encode bs).

(** The place of a character in a list, counted from [i]. *)
Fixpoint index_in (c : byte) (l : bytes) (i : N) : option N :=
  match l with
  | [] => None
  | x :: l' => if Byte.eqb x c then Some i else index_in c l' (N.succ i)
  end.

(** The six-bit group a character stands for. *)
Definition b64_index (c : byte) : option N := index_in c b64_alphabet 0.

(** Reading Base64 text back, after RFC 4648: four characters make three
    bytes; padding is taken at the end only. *)
Fixpoint b64decode (cs : bytes) : option bytes :=
  match cs with
  | [] => Some []
  | c1 :: c2 :: c3 :: c4 :: rest =>
      match b64_index c1, b64_index c2 with
      | Some v1, Some v2 =>
          match b64_index c3, b64_index c4 with
          | Some v3, Some v4 =>
              let n := N.lor (N.shiftl v1 18)
                         (N.lor (N.shiftl v2 12) (N.lor (N.shiftl v3 6) v4)) in
              option_map
                (fun r => byte_of_N (N.shiftr n 16)
                          :: byte_of_N (N.land (N.shiftr n 8) 255)
                          :: byte_of_N (N.land n 255) :: r)
                (b64decode rest)
          | Some v3, None =>
              match rest with
              | [] =>
                  if Byte.eqb c4 b64_pad then
                    let n := N.lor (N.shiftl v1 10)
                               (N.lor (N.shiftl v2 4) (N.shiftr v3 2)) in
                    Some [byte_of_N (N.shiftr n 8); byte_of_N (N.land n 255)]
                  else None
              | _ => None
              end
          | None, _ =>
              match rest with
              | [] =>
                  if (Byte.eqb c3 b64_pad && Byte.eqb c4 b64_pad)%bool then
                    Some [byte_of_N (N.lor (N.shiftl v1 2) (N.shiftr v2 4))]
                  else None
              | _ => None
              end
          end
      | _, _ => None
      end
  | _ => None
  end.

(* ================================================================== *)
(** * Requests, answers and stages of a run *)

(** The three requests of the file. *)
Definition host_meta_request (instance : str) : request :=
  Request GET (str_lit "https://" ++ instance ++ str_lit "/.well-known/host-meta")
    None [] [].

Definition nodeinfo_request (instance : str) : request :=
  Request GET (str_lit "https://" ++ instance ++ str_lit "/nodeinfo/2.0")
    None [] [].

Definition usercheck_request (instance authorization : str) : request :=
  Request POST
    (str_lit "https://" ++ instance ++ str_lit "/api/z/1.0/channel/export/basic")
    (Some (str_lit ""))
    [(str_lit "authorization", authorization)]
    [(str_lit "sections", str_lit "channel"); (str_lit "posts", str_lit "0")].

(** The answer of the remote side to a request made in [w]. *)
Definition answer (w : world) (rq : request) : reply := server w (trace w) rq.

(** What [check_nodeinfo] makes of a response. *)
Definition nodeinfo_verdict (r : response) : outcome bool :=
  if Z.eqb (status_code r) 404 then Ok true
  else
    match response_json r with
    | Exc e => Exc e
    | Ok nodeinfo =>
        match getitem nodeinfo (str_lit "software") with
        | Exc e => Exc e
        | Ok software =>
            match getitem software (str_lit "name") with
            | Exc e => Exc e
            | Ok name =>
                Ok (in_tuple name [str_lit "hubzilla"; str_lit "redmatrix"])
            end
        end
    end.

Definition banner : list event :=
  [EvStdout (str_lit "Cross - a Mastodon/Hubzilla cross-poster" ++ [LF]);
   EvStdout (str_lit "       Holly Lotor Montalvo  2020       " ++ [LF]);
   EvStdout (str_lit "----------------------------------------" ++ [LF; LF])].

Definition instance_prompt : str :=
  str_lit "Please enter your instance's domain (i.e. example.com): ".

Definition channel_prompt (instance : str) : str :=
  str_lit "Please enter your channel name (this is what goes before @"
  ++ instance ++ str_lit "): ".

Definition password_prompt : str := str_lit "Enter your password: ".

Definition unreachable_message : str :=
  str_lit "Instance returned error upon validation. Something's amiss with the instance. Bailing...".

Definition mismatch_message : str :=
  str_lit "Nodeinfo claims this isn't a Hubzilla instance. Bailing...".

Definition unauthorized_message : str :=
  str_lit "Authorization attempt failed. Bailing...".

(** Lines 105 to 113: the banner, the domain prompt, the sanitization. *)
Definition stage_instance : M str :=
  fun w =>
    match readline (stdin w) with
    | None =>
        (Exc EOFError,
         World (stdin w) (tty w) (server w)
           (trace w ++ banner ++ [EvStdout instance_prompt]))
    | Some (entered, rest) =>
        (Ok (sanitize_instance entered),
         World rest (tty w) (server w)
           (trace w ++ banner ++ [EvStdout instance_prompt]))
    end.

(** Lines 133 to 135: the channel name, sanitized, and the password. *)
Definition stage_credentials (instance : str) : M (str * str) :=
  channel_name <- input (channel_prompt instance) ;;
  pword <- getpass password_prompt ;;
  ret (sanitize_channel channel_name, pword).

(** A failed check: the message and [exit(1)]. *)
Definition bailed (message : str) (w : world) : outcome str * world :=
  (Exc (SystemExit 1), logged (EvStdout (message ++ [LF])) w).

Definition account_name_of (channel_name instance : str) : str :=
  str_lit "@" ++ channel_name ++ str_lit "@" ++ instance.

(** [main], stage by stage. *)
Definition main_stages (bc cn : str -> M bool)
    (cu : str -> str -> str -> M bool) (w : world) : outcome str * world :=
  match stage_instance w with
  | (Exc e, w1) => (Exc e, w1)
  | (Ok instance, w1) =>
  match bc instance w1 with
  | (Exc e, w2) => (Exc e, w2)
  | (Ok false, w2) => bailed unreachable_message w2
  | (Ok true, w2) =>
  match cn instance w2 with
  | (Exc e, w3) => (Exc e, w3)
  | (Ok false, w3) => bailed mismatch_message w3
  | (Ok true, w3) =>
  match stage_credentials instance w3 with
  | (Exc e, w4) => (Exc e, w4)
  | (Ok (channel_name, pword), w4) =>
  match cu instance channel_name pword w4 with
  | (Exc e, w5) => (Exc e, w5)
  | (Ok false, w5) => bailed unauthorized_message w5
  | (Ok true, w5) => (Ok (account_name_of channel_name instance), w5)
  end end end end end.

(** The checks touch neither stream nor the remote side. *)
Definition same_surroundings (w w' : world) : Prop :=
  stdin w' = stdin w /\ tty w' = tty w /\ server w' = server w.

(** The requests a statement sends when run in [w]. *)
Fixpoint requests_of (events : list event) : list request :=
  match events with
  | [] => []
  | EvHttp rq :: events' => rq :: requests_of events'
  | _ :: events' => requests_of events'
  end.

Definition sent_by {A} (m : M A) (w : world) : list request :=
  requests_of (skipn (List.length (trace w)) (trace (snd (m w)))).


(* ================================================================== *)
(** * Worlds to run in *)

Definition example_com : str := str_lit "example.com".

(** A remote side that gives every request the same response. *)
Definition answering (status : Z) (body : option json) : list event -> request -> reply :=
  fun _ _ => Answers (Response status body).

(** A remote side that cannot be reached. *)
Definition unreachable : list event -> request -> reply :=
  fun _ _ => Fails ConnectionError.

Definition nodeinfo_of (name : str) : json :=
  JDict [(str_lit "version", JStr (str_lit "2.0"));
         (str_lit "software", JDict [(str_lit "name", JStr name);
                                     (str_lit "version", JStr (str_lit "4.6"))])].

(** A Hubzilla hub: every request is answered 200, with the nodeinfo
    document where it belongs. *)
Definition hub : list event -> request -> reply :=
  fun _ rq =>
    if str_eqb (rq_url rq) (rq_url (nodeinfo_request example_com))
    then Answers (Response 200 (Some (nodeinfo_of (str_lit "hubzilla"))))
    else Answers (Response 200 None).

(** Nobody at the keyboard. *)
Definition idle (remote : list event -> request -> reply) : world :=
  World [] [] remote [].

(** Someone who types the domain, the channel name and the password. *)
Definition typing (domain channel password : string)
    (remote : list event -> request -> reply) : world :=
  World (str_lit domain ++ [LF] ++ str_lit channel ++ [LF])
        (str_lit password ++ [LF]) remote [].

Definition alice : str := str_lit "alice".
Definition secret : str := str_lit "secret".

(** A hub that answers every request with 500. *)
Definition failing_hub_world : world :=
  typing "https://example.com/foo/bar" "@alice" "secret" (answering 500 None).

(** The hub is reachable, says [hubzilla] and accepts the credentials. *)
Definition example_world : world :=
  typing "https://example.com/foo/bar" "@alice" "secret" hub.

(** The same, with another password typed. *)
Definition other_password_world : world :=
  typing "https://example.com/foo/bar" "@alice" "correct horse" hub.

(** A hub that turns the credentials down. *)
Definition rejecting_hub : list event -> request -> reply :=
  fun tr rq =>
    match rq_method rq with
    | GET => hub tr rq
    | POST => Answers (Response 401 None)
    end.

(** A hub without the nodeinfo page. *)
Definition hub_without_nodeinfo : list event -> request -> reply :=
  fun _ rq =>
    if str_eqb (rq_url rq) (rq_url (nodeinfo_request example_com))
    then Answers (Response 404 None)
    else Answers (Response 200 None).

(** [isinstance(v, dict)]. *)
Definition is_dict (v : json) : bool :=
  match v with JDict _ => true | _ => false end.

Definition other_software_world : world :=
  typing "https://example.com/foo/bar" "@alice" "secret"
    (answering 200 (Some (nodeinfo_of (str_lit "mastodon")))).

Definition rejected_world : world :=
  typing "https://example.com/foo/bar" "@alice" "secret" rejecting_hub.

(** The exceptions a check can end in. *)
Definition raised_by_check (e : exn) : bool :=
  match e with
  | SystemExit _ | EOFError | UnicodeDecodeError => false
  | _ => true
  end.

Definition unreachable_world : world :=
  typing "https://example.com/foo/bar" "@alice" "secret" unreachable.

(** Nothing to read on the terminal. *)
Definition no_password_world : world :=
  World (str_lit "example.com" ++ [LF] ++ str_lit "alice" ++ [LF]) [] hub [].

Definition hub_without_nodeinfo_world : world :=
  typing "https://example.com/foo/bar" "@alice" "secret" hub_without_nodeinfo.

Definition alice_request : request :=
  usercheck_request example_com (str_lit "Basic YWxpY2U6c2VjcmV0").

(* ================================================================== *)
(** * Facts about strings and lines *)

Lemma str_eqb_eq (a b : str) : str_eqb a b = true <-> a = b.
Proof.
  revert b; induction a as [|x a IH]; intros [|y b]; simpl;
    try (split; [discriminate | discriminate]); try tauto.
  rewrite andb_true_iff, N.eqb_eq, IH.
  split; [intros [-> ->]; reflexivity | intros H; inversion H; auto].
Qed.

Lemma str_eqb_refl (a : str) : str_eqb a a = true.
Proof. apply str_eqb_eq; reflexivity. Qed.

Lemma until_LF_line (s : str) : ~ In LF (fst (until_LF s)).
Proof.
  induction s as [|c s IH]; simpl; [tauto|].
  destruct (N.eqb_spec c LF) as [->|Hc]; simpl; [tauto|].
  destruct (until_LF s) as [l r]; simpl in *.
  intros [H|H]; [congruence | tauto].
Qed.

Lemma readline_line (s l rest : str) :
  readline s = Some (l, rest) -> ~ In LF l.
Proof.
  destruct s as [|c s]; [discriminate|].
  intros H.
  assert (E : until_LF (c :: s) = (l, rest)) by (unfold readline in H; congruence).
  pose proof (until_LF_line (c :: s)) as Hl.
  now rewrite E in Hl.
Qed.

(** A string that [input] gives back holds no line feed. *)
Lemma input_line (prompt : str) (w w' : world) (s : str) :
  input prompt w = (Ok s, w') -> ~ In LF s.
Proof.
  unfold input, bind, log; simpl.
  destruct (readline (stdin w)) as [[l rest]|] eqn:E; [|discriminate].
  intros H; injection H as <- _.
  exact (readline_line _ _ _ E).
Qed.

(* ================================================================== *)
(** * The three patterns *)

Lemma re_compile_scheme : re_compile (str_lit "^https?://") = Some re_scheme.
Proof. reflexivity. Qed.

Lemma re_compile_path : re_compile (str_lit "/.*$") = Some re_path.
Proof. reflexivity. Qed.

Lemma re_compile_at : re_compile (str_lit "^@") = Some re_at.
Proof. reflexivity. Qed.

Section Scan.

Variable re : regex.
Variable repl : str.

(** Behind the first position an anchored pattern matches nowhere. *)
Lemma sub_scan_bol_rest (s : str) : sub_scan (Bol :: re) repl false 0 s = s.
Proof. induction s as [|c s IH]; simpl; [reflexivity | now rewrite IH]. Qed.

Lemma sub_scan_bol_skip (n : nat) (s : str) :
  sub_scan (Bol :: re) repl false n s = skipn n s.
Proof.
  revert s; induction n as [|n IH]; intros s.
  - apply sub_scan_bol_rest.
  - destruct s as [|c s]; simpl; [reflexivity | apply IH].
Qed.

(** Passing over the whole rest of the subject leaves the scan at its
    end. *)
Lemma sub_scan_skip_all (s : str) :
  sub_scan re repl false (List.length s) s = sub_scan re repl false 0 [].
Proof. induction s as [|c s IH]; simpl; [reflexivity | exact IH]. Qed.

End Scan.

(** With an empty replacement, an anchored pattern removes its match at
    the front, if there is one. *)
Lemma re_sub_bol (re : regex) (s : str) :
  re_sub (Bol :: re) [] s =
  match match_here (Bol :: re) true s with
  | Some n => skipn n s
  | None => s
  end.
Proof.
  unfold re_sub.
  destruct s as [|c s].
  - simpl. destruct (match_here re true []) as [[|n]|]; reflexivity.
  - cbn [sub_scan].
    destruct (match_here (Bol :: re) true (c :: s)) as [[|n]|]; cbn [app skipn].
    + now rewrite sub_scan_bol_rest.
    + apply sub_scan_bol_skip.
    + now rewrite sub_scan_bol_rest.
Qed.

(** Literals and patterns down to their code points. *)
Ltac eval_literals :=
  repeat match goal with
         | |- context [str_lit ?x] =>
             let v := eval vm_compute in (str_lit x) in
             change (str_lit x) with v
         | |- context [chr ?x] =>
             let v := eval vm_compute in (chr x) in
             change (chr x) with v
         end.

(** Walking a subject against literals: the comparison at hand is
    decided, or the subject is opened by one more character. *)
Ltac walk s :=
  repeat (cbn [atom_matches andb option_map N.eqb Pos.eqb];
          try reflexivity;
          first [ match goal with
                  | |- context [N.eqb ?c ?d] =>
                      is_var c; destruct (N.eqb_spec c d) as [->|?]
                  end
                | destruct s as [|? s] ]).

(** ["^https?://"] at the front of a string. *)
Lemma match_here_scheme (s : str) :
  match_here re_scheme true s =
  if starts_with (str_lit "https://") s then Some 8
  else if starts_with (str_lit "http://") s then Some 7
  else None.
Proof.
  let r := eval vm_compute in re_scheme in change re_scheme with r.
  eval_literals.
  cbn [match_here starts_with].
  walk s.
Qed.

Lemma re_sub_scheme (s : str) : re_sub re_scheme [] s = spec_strip_scheme s.
Proof.
  change re_scheme with (Bol :: tl re_scheme) at 1.
  rewrite re_sub_bol. change (Bol :: tl re_scheme) with re_scheme.
  rewrite match_here_scheme. unfold spec_strip_scheme.
  destruct (starts_with (str_lit "https://") s); [reflexivity|].
  destruct (starts_with (str_lit "http://") s); reflexivity.
Qed.

(** ["^@"] *)
Lemma re_sub_at (s : str) : re_sub re_at [] s = spec_strip_at s.
Proof.
  change re_at with (Bol :: tl re_at) at 1.
  rewrite re_sub_bol. unfold spec_strip_at.
  let r := eval vm_compute in (tl re_at) in change (tl re_at) with r.
  eval_literals. cbn [match_here].
  destruct s as [|c s]; [reflexivity|].
  cbn [atom_matches]. destruct (N.eqb c 64); reflexivity.
Qed.

(** ["/.*$"]: on a line, [.*] runs to the end, where [$] holds. *)
Lemma match_star_line (at_start : bool) (s : str) :
  ~ In LF s ->
  match_star AnyChar (match_here [Eol]) at_start s = Some (List.length s).
Proof.
  revert at_start; induction s as [|c s IH]; intros at_start Hs.
  - reflexivity.
  - cbn [match_star atom_matches].
    destruct (N.eqb_spec c LF) as [->|Hc]; [exfalso; apply Hs; now left|].
    cbn [negb]. rewrite IH; [reflexivity|].
    intros H; apply Hs; now right.
Qed.

Lemma sub_scan_path_line (at_start : bool) (s : str) :
  ~ In LF s ->
  sub_scan re_path [] at_start 0 s = spec_cut_path s.
Proof.
  revert at_start; induction s as [|c s IH]; intros at_start Hs.
  - reflexivity.
  - assert (Hs' : ~ In LF s) by (intros H; apply Hs; now right).
    cbn [sub_scan spec_cut_path].
    let r := eval vm_compute in re_path in change re_path with r.
    eval_literals. cbn [match_here atom_matches].
    destruct (N.eqb c 47).
    + rewrite match_star_line by assumption. cbn [option_map app].
      now rewrite sub_scan_skip_all.
    + f_equal. apply (IH false Hs').
Qed.

Lemma re_sub_path_line (s : str) :
  ~ In LF s -> re_sub re_path [] s = spec_cut_path s.
Proof. apply sub_scan_path_line. Qed.

(** What the two specification functions keep of a string. *)
Lemma In_skipn' (c : codepoint) (n : nat) (s : str) :
  In c (skipn n s) -> In c s.
Proof.
  revert s; induction n as [|n IH]; intros [|x s]; simpl; auto.
Qed.

Lemma spec_strip_scheme_sub (c : codepoint) (s : str) :
  In c (spec_strip_scheme s) -> In c s.
Proof.
  unfold spec_strip_scheme.
  destruct (starts_with _ s); [apply In_skipn'|].
  destruct (starts_with _ s); [apply In_skipn' | auto].
Qed.

Lemma spec_cut_path_sub (c : codepoint) (s : str) :
  In c (spec_cut_path s) -> In c s.
Proof.
  induction s as [|x s IH]; cbn [spec_cut_path]; [auto|].
  destruct (N.eqb x (chr "/")); cbn [In]; tauto.
Qed.

Lemma spec_cut_path_no_slash (s : str) : ~ In (chr "/") (spec_cut_path s).
Proof.
  induction s as [|x s IH]; cbn [spec_cut_path]; [cbn; tauto|].
  destruct (N.eqb_spec x (chr "/")); cbn [In]; [tauto|].
  intros [H|H]; [congruence | tauto].
Qed.

Lemma spec_cut_path_fixed (s : str) :
  ~ In (chr "/") s -> spec_cut_path s = s.
Proof.
  induction s as [|x s IH]; cbn [spec_cut_path In]; [reflexivity|]; intros H.
  destruct (N.eqb_spec x (chr "/")) as [->|_]; [tauto|].
  f_equal; tauto.
Qed.

Lemma starts_with_app (p s : str) :
  starts_with p s = true -> exists rest, s = p ++ rest.
Proof.
  revert s; induction p as [|x p IH]; intros s H.
  - now exists s.
  - destruct s as [|y s]; [discriminate|]. simpl in H.
    apply andb_true_iff in H as [Hx Hp]. apply N.eqb_eq in Hx as ->.
    destruct (IH _ Hp) as [rest ->]. now exists rest.
Qed.

Lemma spec_strip_scheme_fixed (s : str) :
  ~ In (chr "/") s -> spec_strip_scheme s = s.
Proof.
  intros H. unfold spec_strip_scheme.
  destruct (starts_with (str_lit "https://") s) eqn:E1.
  { apply starts_with_app in E1 as [rest ->]. exfalso; apply H.
    apply in_or_app; left. vm_compute. tauto. }
  destruct (starts_with (str_lit "http://") s) eqn:E2; [|reflexivity].
  apply starts_with_app in E2 as [rest ->]. exfalso; apply H.
  apply in_or_app; left. vm_compute. tauto.
Qed.

(** The sanitized domain of an entered line, as the specification words
    it. *)
Lemma sanitize_instance_line (s : str) :
  ~ In LF s -> sanitize_instance s = spec_cut_path (spec_strip_scheme s).
Proof.
  intros Hs. unfold sanitize_instance. change (str_lit "") with (@nil codepoint).
  rewrite re_sub_scheme. apply re_sub_path_line.
  intros H; apply Hs. now apply spec_strip_scheme_sub.
Qed.

Lemma sanitize_instance_line_fixed (s : str) :
  ~ In LF s -> sanitize_instance (sanitize_instance s) = sanitize_instance s.
Proof.
  intros Hs. rewrite (sanitize_instance_line s Hs).
  set (t := spec_cut_path (spec_strip_scheme s)).
  assert (Ht : ~ In LF t).
  { intros H; apply Hs.
    now apply spec_strip_scheme_sub, spec_cut_path_sub. }
  rewrite (sanitize_instance_line t Ht).
  pose proof (spec_cut_path_no_slash (spec_strip_scheme s)) as Hn.
  fold t in Hn.
  rewrite (spec_strip_scheme_fixed t Hn). now apply spec_cut_path_fixed.
Qed.

(* ================================================================== *)
(** * UTF-8 and Base64: the text of the credentials *)

Lemma b64_char_ascii (n : N) : is_ascii (b64_char n).
Proof.
  unfold b64_char.
  destruct (nth_in_or_default (N.to_nat n) b64_alphabet b64_pad) as [H | ->].
  - revert H. generalize (nth (N.to_nat n) b64_alphabet b64_pad); intros b.
    assert (F : Forall is_ascii b64_alphabet)
      by (repeat constructor; reflexivity).
    rewrite Forall_forall in F. apply F.
  - reflexivity.
Qed.

Lemma bytes_ind3 (P : bytes -> Prop) :
  P [] -> (forall a, P [a]) -> (forall a b, P [a; b]) ->
  (forall a b c rest, P rest -> P (a :: b :: c :: rest)) ->
  forall bs, P bs.
Proof.
  intros H0 H1 H2 H3 bs.
  assert (H : P bs /\ (forall a, P (a :: bs)) /\ (forall a b, P (a :: b :: bs))).
  { induction bs as [|c bs (Ha & Hb & Hc)]; [auto|].
    split; [apply Hb|]. split; [intros a; apply Hc|].
    intros a b; apply H3, Ha. }
  apply H.
Qed.

Lemma b64encode_ascii (bs : bytes) : Forall is_ascii (b64encode bs).
Proof.
  induction bs as [| a | a b | a b c rest IH] using bytes_ind3;
    cbn [b64encode];
    repeat (constructor; try apply b64_char_ascii; try reflexivity).
  exact IH.
Qed.

Lemma utf8_decode_ascii (bs : bytes) :
  Forall is_ascii bs -> utf8_decode bs = Some (map Byte.to_N bs).
Proof.
  induction 1 as [|b bs Hb _ IH]; [reflexivity|].
  cbn [utf8_decode map]. apply N.ltb_lt in Hb. rewrite Hb, IH. reflexivity.
Qed.

Lemma str_of_b64encode (bs : bytes) :
  str_of_bytes (b64encode bs) = Ok (b64_text bs).
Proof.
  unfold str_of_bytes. now rewrite (utf8_decode_ascii _ (b64encode_ascii bs)).
Qed.

(** Bit operations as arithmetic, for [lia]. *)
Ltac euclid := zify; Z.to_euclidean_division_equations; lia.

Lemma land_shiftl_low (a x k : N) : (x < 2 ^ k)%N -> N.land (N.shiftl a k) x = 0%N.
Proof.
  intros Hx. apply N.bits_inj_0. intros i.
  rewrite N.land_spec.
  destruct (N.lt_ge_cases i k) as [Hi|Hi].
  - now rewrite N.shiftl_spec_low.
  - destruct (N.eq_dec x 0) as [->|Hx0]; [now rewrite N.bits_0, andb_false_r|].
    rewrite (N.bits_above_log2 x i), andb_false_r; [reflexivity|].
    apply N.log2_lt_pow2; [lia|].
    eapply N.lt_le_trans; [exact Hx|]. apply N.pow_le_mono_r; lia.
Qed.

Lemma lor_shiftl_add (a x k : N) :
  (x < 2 ^ k)%N -> N.lor (N.shiftl a k) x = (a * 2 ^ k + x)%N.
Proof.
  intros Hx. rewrite <- N.lxor_lor, <- N.add_nocarry_lxor by now apply land_shiftl_low.
  now rewrite N.shiftl_mul_pow2.
Qed.

Lemma b64_index_char (n : N) : (n < 64)%N -> b64_index (b64_char n) = Some n.
Proof.
  intros H. destruct n as [|p]; [reflexivity|].
  do 6 (destruct p as [p|p|]; try reflexivity); exfalso; lia.
Qed.

Lemma land_low (k x : N) : N.land x (N.ones k) = (x mod 2 ^ k)%N.
Proof. apply N.land_ones. Qed.

Ltac to_arith :=
  rewrite ?(land_low 2 : forall x, N.land x 3 = _),
          ?(land_low 3 : forall x, N.land x 7 = _),
          ?(land_low 4 : forall x, N.land x 15 = _),
          ?(land_low 5 : forall x, N.land x 31 = _),
          ?(land_low 6 : forall x, N.land x 63 = _),
          ?(land_low 8 : forall x, N.land x 255 = _),
          ?N.shiftr_div_pow2;
  repeat match goal with
         | |- context [N.lor (N.shiftl ?a ?k) ?x] =>
             rewrite (lor_shiftl_add a x k)
               by (rewrite ?N.shiftl_mul_pow2;
                   cbn [N.pow Pos.pow Pos.iter Pos.mul]; euclid)
         end;
  rewrite ?N.shiftl_mul_pow2;
  cbn [N.pow Pos.pow Pos.iter Pos.mul].

Lemma byte_of_to_N (a : byte) : byte_of_N (Byte.to_N a) = a.
Proof. unfold byte_of_N. now rewrite Byte.of_to_N. Qed.

Lemma sextets3 (A B C : N) :
  (A <= 255 -> B <= 255 -> C <= 255 ->
   let n := N.lor (N.shiftl A 16) (N.lor (N.shiftl B 8) C) in
   let s1 := N.shiftr n 18 in
   let s2 := N.land (N.shiftr n 12) 63 in
   let s3 := N.land (N.shiftr n 6) 63 in
   let s4 := N.land n 63 in
   (s1 < 64 /\ s2 < 64 /\ s3 < 64 /\ s4 < 64) /\
   let m := N.lor (N.shiftl s1 18)
              (N.lor (N.shiftl s2 12) (N.lor (N.shiftl s3 6) s4)) in
   N.shiftr m 16 = A /\ N.land (N.shiftr m 8) 255 = B /\ N.land m 255 = C)%N.
Proof.
  intros HA HB HC n s1 s2 s3 s4. subst n s1 s2 s3 s4. to_arith.
  split; [repeat split; euclid|].
  to_arith. repeat split; euclid.
Qed.

Lemma sextets2 (A B : N) :
  (A <= 255 -> B <= 255 ->
   let n := N.lor (N.shiftl A 8) B in
   let s1 := N.shiftr n 10 in
   let s2 := N.land (N.shiftr n 4) 63 in
   let s3 := N.shiftl (N.land n 15) 2 in
   (s1 < 64 /\ s2 < 64 /\ s3 < 64) /\
   let m := N.lor (N.shiftl s1 10) (N.lor (N.shiftl s2 4) (N.shiftr s3 2)) in
   N.shiftr m 8 = A /\ N.land m 255 = B)%N.
Proof.
  intros HA HB n s1 s2 s3. subst n s1 s2 s3. to_arith.
  split; [repeat split; euclid|].
  to_arith. repeat split; euclid.
Qed.

Theorem b64decode_b64encode (bs : bytes) : b64decode (b64encode bs) = Some bs.
Proof.
  induction bs as [| a | a b | a b c rest IH] using bytes_ind3.
  - reflexivity.
  - destruct a; reflexivity.
  - cbn [b64encode b64decode].
    destruct (sextets2 (Byte.to_N a) (Byte.to_N b)
                (Byte.to_N_bounded a) (Byte.to_N_bounded b))
      as ((H1 & H2 & H3) & Ha & Hb).
    rewrite !b64_index_char by assumption.
    change (b64_index b64_pad) with (@None N). cbn [Byte.eqb].
    cbv zeta. rewrite Ha, Hb, !byte_of_to_N. reflexivity.
  - cbn [b64encode b64decode].
    destruct (sextets3 (Byte.to_N a) (Byte.to_N b) (Byte.to_N c)
                (Byte.to_N_bounded a) (Byte.to_N_bounded b) (Byte.to_N_bounded c))
      as ((H1 & H2 & H3 & H4) & Ha & Hb & Hc).
    rewrite !b64_index_char by assumption.
    cbv zeta. rewrite Ha, Hb, Hc, !byte_of_to_N, IH. reflexivity.
Qed.

Lemma to_N_byte_of_N (n : N) : (n <= 255)%N -> Byte.to_N (byte_of_N n) = n.
Proof.
  intros H. unfold byte_of_N. destruct (Byte.of_N n) as [b|] eqn:E.
  - now apply Byte.to_of_N.
  - apply Byte.of_N_None_iff in E. lia.
Qed.

Ltac masks :=
  change 0xC0%N with (N.shiftl 3 6); change 0x80%N with (N.shiftl 2 6);
  change 0xE0%N with (N.shiftl 7 5); change 0xF0%N with (N.shiftl 15 4).

Ltac decide_tests :=
  repeat match goal with
         | |- context [N.ltb ?a ?b] =>
             destruct (N.ltb_spec a b); try (exfalso; euclid)
         | |- context [N.leb ?a ?b] =>
             destruct (N.leb_spec a b); try (exfalso; euclid)
         end.

(** The tests on the lead byte, with the rest of the bytes kept closed. *)
Ltac lead_byte :=
  match goal with
  | |- utf8_decode (_ :: ?t) = _ =>
      let tl := fresh "tl" in
      remember t as tl;
      cbn [utf8_decode]; rewrite !to_N_byte_of_N by euclid;
      decide_tests; subst tl; cbv beta iota zeta;
      unfold is_cont, low6; rewrite ?to_N_byte_of_N by euclid
  end.

Lemma utf8_decode_one (c : N) (r : bytes) :
  (c < 0x80)%N ->
  utf8_decode (byte_of_N c :: r) = option_map (cons c) (utf8_decode r).
Proof. intros H. lead_byte. reflexivity. Qed.

Lemma utf8_lead2 (c : N) :
  (0x80 <= c < 0x800 ->
   N.lor 0xC0 (N.shiftr c 6) = 192 + c / 64 /\
   N.lor 0x80 (N.land c 0x3F) = 128 + c mod 64)%N.
Proof. intros H. masks. to_arith. split; reflexivity. Qed.

Lemma utf8_decode_two (c : N) (r : bytes) :
  (0x80 <= c < 0x800)%N ->
  utf8_decode (byte_of_N (N.lor 0xC0 (N.shiftr c 6))
               :: byte_of_N (N.lor 0x80 (N.land c 0x3F)) :: r)
  = option_map (cons c) (utf8_decode r).
Proof.
  intros H. destruct (utf8_lead2 c H) as [E0 E1]. rewrite E0, E1.
  lead_byte.
  to_arith.
  assert (Ec : ((192 + c / 64) mod 32 * 64 + (128 + c mod 64) mod 64)%N = c)
    by euclid.
  rewrite Ec. decide_tests. reflexivity.
Qed.

Lemma utf8_lead3 (c : N) :
  (0x800 <= c < 0x10000 ->
   N.lor 0xE0 (N.shiftr c 12) = 224 + c / 4096 /\
   N.lor 0x80 (N.land (N.shiftr c 6) 0x3F) = 128 + (c / 64) mod 64 /\
   N.lor 0x80 (N.land c 0x3F) = 128 + c mod 64)%N.
Proof. intros H. masks. to_arith. repeat split; reflexivity. Qed.

Lemma utf8_decode_three (c : N) (r : bytes) :
  (0x800 <= c < 0x10000)%N ->
  ((0xD800 <=? c) && (c <? 0xE000))%N = false ->
  utf8_decode (byte_of_N (N.lor 0xE0 (N.shiftr c 12))
               :: byte_of_N (N.lor 0x80 (N.land (N.shiftr c 6) 0x3F))
               :: byte_of_N (N.lor 0x80 (N.land c 0x3F)) :: r)
  = option_map (cons c) (utf8_decode r).
Proof.
  intros H Hs. destruct (utf8_lead3 c H) as (E0 & E1 & E2). rewrite E0, E1, E2.
  lead_byte.
  to_arith.
  assert (Ec : ((224 + c / 4096) mod 16 * 4096 +
                ((128 + (c / 64) mod 64) mod 64 * 64 + (128 + c mod 64) mod 64))%N = c)
    by euclid.
  rewrite Ec, Hs. decide_tests. reflexivity.
Qed.

Lemma utf8_lead4 (c : N) :
  (0x10000 <= c < 0x110000 ->
   N.lor 0xF0 (N.shiftr c 18) = 240 + c / 262144 /\
   N.lor 0x80 (N.land (N.shiftr c 12) 0x3F) = 128 + (c / 4096) mod 64 /\
   N.lor 0x80 (N.land (N.shiftr c 6) 0x3F) = 128 + (c / 64) mod 64 /\
   N.lor 0x80 (N.land c 0x3F) = 128 + c mod 64)%N.
Proof. intros H. masks. to_arith. repeat split; reflexivity. Qed.

Lemma utf8_decode_four (c : N) (r : bytes) :
  (0x10000 <= c < 0x110000)%N ->
  utf8_decode (byte_of_N (N.lor 0xF0 (N.shiftr c 18))
               :: byte_of_N (N.lor 0x80 (N.land (N.shiftr c 12) 0x3F))
               :: byte_of_N (N.lor 0x80 (N.land (N.shiftr c 6) 0x3F))
               :: byte_of_N (N.lor 0x80 (N.land c 0x3F)) :: r)
  = option_map (cons c) (utf8_decode r).
Proof.
  intros H. destruct (utf8_lead4 c H) as (E0 & E1 & E2 & E3).
  rewrite E0, E1, E2, E3.
  lead_byte.
  to_arith.
  assert (Ec : ((240 + c / 262144) mod 8 * 262144 +
                ((128 + (c / 4096) mod 64) mod 64 * 4096 +
                 ((128 + (c / 64) mod 64) mod 64 * 64 + (128 + c mod 64) mod 64)))%N = c)
    by euclid.
  rewrite Ec. decide_tests. reflexivity.
Qed.

Lemma utf8_decode_cp (c : N) (b r : bytes) :
  utf8_encode_cp c = Some b ->
  utf8_decode (b ++ r) = option_map (cons c) (utf8_decode r).
Proof.
  unfold utf8_encode_cp.
  destruct (N.ltb_spec c 0x80).
  { intros [= <-]. now apply utf8_decode_one. }
  destruct (N.ltb_spec c 0x800).
  { intros [= <-]. apply utf8_decode_two. lia. }
  destruct (N.ltb_spec c 0x10000).
  { destruct ((0xD800 <=? c) && (c <? 0xE000))%N eqn:Hs; [discriminate|].
    intros [= <-]. apply utf8_decode_three; [lia | exact Hs]. }
  destruct (N.ltb_spec c 0x110000); [|discriminate].
  intros [= <-]. apply utf8_decode_four. lia.
Qed.

Theorem utf8_decode_encode (s : str) (bs : bytes) :
  utf8_encode s = Some bs -> utf8_decode bs = Some s.
Proof.
  revert bs; induction s as [|c s IH]; intros bs; cbn [utf8_encode].
  - now intros [= <-].
  - destruct (utf8_encode_cp c) as [b|] eqn:Ec; [|discriminate].
    destruct (utf8_encode s) as [bs'|]; [|discriminate].
    intros [= <-]. rewrite (utf8_decode_cp c b bs' Ec), (IH bs' eq_refl).
    reflexivity.
Qed.

(* ================================================================== *)
(** * What each check does in a world *)

Lemma basic_check_run (instance : str) (w : world) :
  basic_check instance w =
  match answer w (host_meta_request instance) with
  | Answers r =>
      (Ok (Z.eqb (status_code r) 200),
       logged (EvHttp (host_meta_request instance)) w)
  | Fails e =>
      (Exc (RequestException e), logged (EvHttp (host_meta_request instance)) w)
  end.
Proof.
  unfold basic_check, bind, requests_request, answer, host_meta_request.
  destruct (server w (trace w) _) as [r|e]; [|reflexivity].
  destruct (Z.eqb (status_code r) 200); reflexivity.
Qed.

Lemma check_nodeinfo_run (instance : str) (w : world) :
  check_nodeinfo instance w =
  match answer w (nodeinfo_request instance) with
  | Answers r =>
      (nodeinfo_verdict r, logged (EvHttp (nodeinfo_request instance)) w)
  | Fails e =>
      (Exc (RequestException e), logged (EvHttp (nodeinfo_request instance)) w)
  end.
Proof.
  unfold check_nodeinfo, bind, requests_request, answer, nodeinfo_request,
    nodeinfo_verdict, lift.
  destruct (server w (trace w) _) as [r|e]; [|reflexivity].
  destruct (Z.eqb (status_code r) 404); [reflexivity|].
  destruct (response_json r) as [nodeinfo|]; [|reflexivity].
  destruct (getitem nodeinfo _) as [software|]; [|reflexivity].
  destruct (getitem software _) as [name|]; [|reflexivity].
  destruct (in_tuple name _); reflexivity.
Qed.

Lemma check_usercred_run (instance channel_name password : str) (w : world) :
  check_usercred instance channel_name password w =
  match utf8_encode (channel_name ++ str_lit ":" ++ password) with
  | None => (Exc UnicodeEncodeError, w)
  | Some bs =>
      let rq := usercheck_request instance (str_lit "Basic " ++ b64_text bs) in
      match answer w rq with
      | Answers r => (Ok (Z.eqb (status_code r) 200), logged (EvHttp rq) w)
      | Fails e => (Exc (RequestException e), logged (EvHttp rq) w)
      end
  end.
Proof.
  unfold check_usercred, bind, lift, str_encode.
  destruct (utf8_encode _) as [bs|]; [|reflexivity].
  rewrite str_of_b64encode.
  unfold requests_request, answer, usercheck_request; cbv zeta.
  destruct (server w (trace w) _) as [r|e]; [|reflexivity].
  destruct (Z.eqb (status_code r) 200); reflexivity.
Qed.

(* ================================================================== *)
(** * The stages of [main] *)

(** Running the terminal statements of a stage where they stand. *)
Ltac run_stage :=
  cbv beta iota zeta delta
    [bind print log ret raise exit when is_False negb input getpass logged
     stage_instance stage_credentials bailed banner
     sanitize_instance sanitize_channel channel_prompt password_prompt
     instance_prompt unreachable_message mismatch_message
     unauthorized_message account_name_of];
  cbn [stdin tty server trace];
  repeat rewrite <- app_assoc; cbn [app].

Lemma main_with_stages (bc cn : str -> M bool)
    (cu : str -> str -> str -> M bool) (w : world) :
  main_with bc cn cu w = main_stages bc cn cu w.
Proof.
  destruct w as [i t sv tr].
  unfold main_with, main_stages. run_stage.
  destruct (readline i) as [[entered rest]|]; [|reflexivity].
  match goal with
  | |- context [bc ?x ?w1] => destruct (bc x w1) as [[[|]|e] w2]
  end; run_stage; try reflexivity.
  match goal with
  | |- context [cn ?x ?w1] => destruct (cn x w1) as [[[|]|e] [i3 t3 sv3 tr3]]
  end; run_stage; try reflexivity.
  destruct (readline i3) as [[c rest3]|]; run_stage; [|reflexivity].
  destruct (readline t3) as [[pw rest4]|]; run_stage; [|reflexivity].
  match goal with
  | |- context [cu ?x ?n ?p ?w1] => destruct (cu x n p w1) as [[[|]|e] w5]
  end; run_stage; reflexivity.
Qed.

(** A run that gets through all of [main_stages]. *)
Lemma main_stages_ok (bc cn : str -> M bool) (cu : str -> str -> str -> M bool)
    (w w' : world) (account_name : str) :
  main_stages bc cn cu w = (Ok account_name, w') ->
  exists instance w1 w2 w3 channel_name pword w4,
    stage_instance w = (Ok instance, w1) /\
    bc instance w1 = (Ok true, w2) /\
    cn instance w2 = (Ok true, w3) /\
    stage_credentials instance w3 = (Ok (channel_name, pword), w4) /\
    cu instance channel_name pword w4 = (Ok true, w') /\
    account_name = account_name_of channel_name instance.
Proof.
  unfold main_stages, bailed.
  destruct (stage_instance w) as [[instance|?] w1] eqn:E1; [|discriminate].
  destruct (bc instance w1) as [[[|]|?] w2] eqn:E2; try discriminate.
  destruct (cn instance w2) as [[[|]|?] w3] eqn:E3; try discriminate.
  destruct (stage_credentials instance w3) as [[[channel_name pword]|?] w4]
    eqn:E4; [|discriminate].
  destruct (cu instance channel_name pword w4) as [[[|]|?] w5] eqn:E5;
    try discriminate.
  intros H; injection H as <- <-.
  exists instance, w1, w2, w3, channel_name, pword, w4.
  repeat split; assumption || reflexivity.
Qed.

(** What the two prompting stages read. *)
Lemma stage_instance_ok (w w1 : world) (instance : str) :
  stage_instance w = (Ok instance, w1) ->
  exists entered,
    readline (stdin w) = Some (entered, stdin w1) /\
    instance = sanitize_instance entered /\
    tty w1 = tty w /\ server w1 = server w /\
    trace w1 = trace w ++ banner ++ [EvStdout instance_prompt].
Proof.
  unfold stage_instance.
  destruct (readline (stdin w)) as [[entered rest]|]; [|discriminate].
  intros H; injection H as <- <-. exists entered. repeat split; reflexivity.
Qed.

Lemma stage_credentials_ok (instance : str) (w w' : world)
    (channel_name pword : str) :
  stage_credentials instance w = (Ok (channel_name, pword), w') ->
  exists entered,
    readline (stdin w) = Some (entered, stdin w') /\
    channel_name = sanitize_channel entered /\
    readline (tty w) = Some (pword, tty w') /\
    server w' = server w /\
    trace w' = trace w ++ [EvStdout (channel_prompt instance);
                           EvTty password_prompt; EvTty [LF]].
Proof.
  destruct w as [i t sv tr]. unfold stage_credentials. run_stage.
  destruct (readline i) as [[c rest]|]; run_stage; [|discriminate].
  destruct (readline t) as [[pw rest']|]; run_stage; [|discriminate].
  intros H; injection H as <- <- <-. exists c. repeat split; reflexivity.
Qed.

Lemma basic_check_frame (instance : str) (w w' : world) (o : outcome bool) :
  basic_check instance w = (o, w') -> same_surroundings w w'.
Proof.
  rewrite basic_check_run.
  destruct (answer w _); intros H; injection H as _ <-; repeat split.
Qed.

Lemma check_nodeinfo_frame (instance : str) (w w' : world) (o : outcome bool) :
  check_nodeinfo instance w = (o, w') -> same_surroundings w w'.
Proof.
  rewrite check_nodeinfo_run.
  destruct (answer w _); intros H; injection H as _ <-; repeat split.
Qed.

Lemma check_usercred_frame (instance channel_name password : str)
    (w w' : world) (o : outcome bool) :
  check_usercred instance channel_name password w = (o, w') ->
  same_surroundings w w'.
Proof.
  rewrite check_usercred_run.
  destruct (utf8_encode _); cbv zeta;
    [destruct (answer w _)|]; intros H; injection H as _ <-; repeat split.
Qed.

(** A successful run of [main]: the three checks gave [True] in turn, and
    the account name is made of the two sanitized lines of standard
    input. *)
Lemma main_ok (w w' : world) (account_name : str) :
  main w = (Ok account_name, w') ->
  exists instance w1 w2 w3 channel_name pword w4,
    stage_instance w = (Ok instance, w1) /\
    basic_check instance w1 = (Ok true, w2) /\
    check_nodeinfo instance w2 = (Ok true, w3) /\
    stage_credentials instance w3 = (Ok (channel_name, pword), w4) /\
    check_usercred instance channel_name pword w4 = (Ok true, w') /\
    account_name = account_name_of channel_name instance /\
    exists entered_domain rest entered_channel rest',
      readline (stdin w) = Some (entered_domain, rest) /\
      readline rest = Some (entered_channel, rest') /\
      instance = sanitize_instance entered_domain /\
      channel_name = sanitize_channel entered_channel.
Proof.
  unfold main. rewrite main_with_stages. intros H.
  apply main_stages_ok in H
    as (instance & w1 & w2 & w3 & channel_name & pword & w4
        & H1 & H2 & H3 & H4 & H5 & ->).
  exists instance, w1, w2, w3, channel_name, pword, w4.
  repeat (split; [assumption || reflexivity|]).
  destruct (stage_instance_ok _ _ _ H1) as (d & Hd & -> & _).
  destruct (stage_credentials_ok _ _ _ _ _ H4) as (c & Hc & -> & _).
  destruct (basic_check_frame _ _ _ _ H2) as (E2 & _).
  destruct (check_nodeinfo_frame _ _ _ _ H3) as (E3 & _).
  exists d, (stdin w1), c, (stdin w4).
  rewrite E3, E2 in Hc. repeat split; assumption.
Qed.

Lemma json_eq_str_eq (v : json) (s : str) :
  json_eq_str v s = true <-> v = JStr s.
Proof.
  destruct v; simpl; try (split; discriminate).
  rewrite str_eqb_eq. split; [now intros -> | now intros [= ->]].
Qed.

Lemma in_tuple_names (name : json) :
  in_tuple name [str_lit "hubzilla"; str_lit "redmatrix"] = true <->
  name = JStr (str_lit "hubzilla") \/ name = JStr (str_lit "redmatrix").
Proof.
  unfold in_tuple; cbn [existsb].
  rewrite !orb_true_iff, !json_eq_str_eq. intuition discriminate.
Qed.

Lemma skipn_length_app {A} (l r : list A) : skipn (List.length l) (l ++ r) = r.
Proof. induction l as [|x l IH]; [reflexivity | exact IH]. Qed.

(* ================================================================== *)
(** * The software-identity check *)

(** C1, as amended.  When the GET to [https://<domain>/nodeinfo/2.0] is
    answered with a status other than 404 and the body parses and holds a
    [software.name] field, [check_nodeinfo] returns true if and only if the
    field equals ["hubzilla"] or ["redmatrix"], and false for every other
    value; when the body does not parse, it raises the decoding error
    rather than returning false. *)
Theorem check_nodeinfo_software_name (instance : str) (w : world) (r : response) :
  answer w (nodeinfo_request instance) = Answers r ->
  status_code r <> 404%Z ->
  match json_body r with
  | None => fst (check_nodeinfo instance w) = Exc JSONDecodeError
  | Some nodeinfo =>
      forall software name : json,
        getitem nodeinfo (str_lit "software") = Ok software ->
        getitem software (str_lit "name") = Ok name ->
        exists b : bool,
          fst (check_nodeinfo instance w) = Ok b /\
          (b = true <->
           name = JStr (str_lit "hubzilla") \/ name = JStr (str_lit "redmatrix"))
  end.
Proof.
  intros Hr H404. rewrite check_nodeinfo_run, Hr. cbn [fst].
  unfold nodeinfo_verdict, response_json.
  apply Z.eqb_neq in H404. rewrite H404.
  destruct (json_body r) as [nodeinfo|]; [|reflexivity].
  intros software name Hs Hn. rewrite Hs, Hn.
  eexists; split; [reflexivity | apply in_tuple_names].
Qed.

Lemma check_nodeinfo_software_name_witness :
  (exists b : bool,
     fst (check_nodeinfo example_com (idle hub)) = Ok b /\
     (b = true <->
      JStr (str_lit "hubzilla") = JStr (str_lit "hubzilla") \/
      JStr (str_lit "hubzilla") = JStr (str_lit "redmatrix"))) /\
  fst (check_nodeinfo example_com (idle (answering 500 None))) =
  Exc JSONDecodeError.
Proof.
  split.
  - refine (check_nodeinfo_software_name example_com (idle hub)
              (Response 200 (Some (nodeinfo_of (str_lit "hubzilla"))))
              _ _ _ _ _ _);
      [reflexivity | discriminate | reflexivity | reflexivity].
  - refine (check_nodeinfo_software_name example_com
              (idle (answering 500 None)) (Response 500 None) _ _);
      [reflexivity | discriminate].
Defined.

(** C1 as stated fails: a body that does not parse makes the check raise,
    not return false. *)
Lemma check_nodeinfo_unparseable_body_raises :
  answer (idle (answering 200 None)) (nodeinfo_request example_com) =
    Answers (Response 200 None) /\
  fst (check_nodeinfo example_com (idle (answering 200 None))) =
    Exc JSONDecodeError /\
  fst (check_nodeinfo example_com (idle (answering 200 None))) <> Ok false.
Proof. repeat split. discriminate. Qed.

(** Values of [software.name] that are not the two names, one of them
    differing in case only, give false. *)
Example check_nodeinfo_other_names :
  map (fun name =>
         fst (check_nodeinfo example_com
                (idle (answering 200 (Some (nodeinfo_of (str_lit name)))))))
      ["hubzilla"; "redmatrix"; "Hubzilla"; "mastodon"; ""]%string
  = [Ok true; Ok true; Ok false; Ok false; Ok false].
Proof. reflexivity. Qed.

(** A document without the field: the lookup raises. *)
Example check_nodeinfo_missing_field :
  map (fun body => fst (check_nodeinfo example_com (idle (answering 200 (Some body)))))
      [JDict []; JDict [(str_lit "software", JDict [])];
       JDict [(str_lit "software", JStr (str_lit "hubzilla"))]; JList []; JNull]
  = [Exc (KeyError (str_lit "software")); Exc (KeyError (str_lit "name"));
     Exc TypeError; Exc TypeError; Exc TypeError].
Proof. reflexivity. Qed.

(** C4.  When the GET to [https://<domain>/nodeinfo/2.0] is answered with
    status 404, [check_nodeinfo] returns true, whatever the body. *)
Theorem check_nodeinfo_404 (instance : str) (w : world) (r : response) :
  answer w (nodeinfo_request instance) = Answers r ->
  status_code r = 404%Z ->
  fst (check_nodeinfo instance w) = Ok true.
Proof.
  intros Hr H404. rewrite check_nodeinfo_run, Hr. cbn [fst].
  unfold nodeinfo_verdict. now rewrite H404.
Qed.

Lemma check_nodeinfo_404_witness :
  fst (check_nodeinfo example_com (idle (answering 404 None))) = Ok true /\
  fst (check_nodeinfo example_com
         (idle (answering 404 (Some (nodeinfo_of (str_lit "mastodon"))))))
  = Ok true.
Proof.
  split.
  - apply (check_nodeinfo_404 example_com (idle (answering 404 None))
             (Response 404 None)); reflexivity.
  - apply (check_nodeinfo_404 example_com _
             (Response 404 (Some (nodeinfo_of (str_lit "mastodon")))));
      reflexivity.
Defined.

(* ================================================================== *)
(** * The reachability check *)

(** C2, as amended.  [basic_check] returns true if and only if the GET to
    [https://<domain>/.well-known/host-meta] is answered with status
    exactly 200, and false for every other status; when the transport fails
    it raises the client's exception rather than returning false. *)
Theorem basic_check_status (instance : str) (w : world) :
  match answer w (host_meta_request instance) with
  | Answers r =>
      exists b : bool,
        fst (basic_check instance w) = Ok b /\
        (b = true <-> status_code r = 200%Z)
  | Fails e => fst (basic_check instance w) = Exc (RequestException e)
  end.
Proof.
  rewrite basic_check_run.
  destruct (answer w (host_meta_request instance)) as [r|e]; [|reflexivity].
  eexists; split; [reflexivity | apply Z.eqb_eq].
Qed.

(** C2 as stated fails: when the transport fails, the check raises. *)
Lemma basic_check_transport_failure_raises :
  answer (idle unreachable) (host_meta_request example_com) =
    Fails ConnectionError /\
  fst (basic_check example_com (idle unreachable)) =
    Exc (RequestException ConnectionError) /\
  fst (basic_check example_com (idle unreachable)) <> Ok false.
Proof. repeat split. discriminate. Qed.

Example basic_check_statuses :
  map (fun status => fst (basic_check example_com (idle (answering status None))))
      [200; 201; 204; 301; 404; 500]%Z
  = [Ok true; Ok false; Ok false; Ok false; Ok false; Ok false].
Proof. reflexivity. Qed.

(* ================================================================== *)
(** * The credential check *)

Lemma sent_by_check_usercred (instance channel_name password : str)
    (w : world) (bs : bytes) :
  utf8_encode (channel_name ++ str_lit ":" ++ password) = Some bs ->
  sent_by (check_usercred instance channel_name password) w =
  [usercheck_request instance (str_lit "Basic " ++ b64_text bs)].
Proof.
  intros H. unfold sent_by. rewrite check_usercred_run, H. cbv zeta.
  destruct (answer w _); cbn [snd logged trace];
    now rewrite skipn_length_app.
Qed.

(** C3, as amended.  For a channel name and password that encode as UTF-8,
    [check_usercred] returns true if and only if the POST to
    [https://<domain>/api/z/1.0/channel/export/basic], with the Basic
    authorization header, the query parameters [sections=channel] and
    [posts=0] and an empty body, is answered with status exactly 200, and
    false for every other status; on a network failure it raises the
    client's exception rather than returning false. *)
Theorem check_usercred_status (instance channel_name password : str)
    (w : world) (bs : bytes) :
  utf8_encode (channel_name ++ str_lit ":" ++ password) = Some bs ->
  sent_by (check_usercred instance channel_name password) w =
    [Request POST
       (str_lit "https://" ++ instance ++ str_lit "/api/z/1.0/channel/export/basic")
       (Some [])
       [(str_lit "authorization", str_lit "Basic " ++ b64_text bs)]
       [(str_lit "sections", str_lit "channel"); (str_lit "posts", str_lit "0")]] /\
  match answer w (usercheck_request instance (str_lit "Basic " ++ b64_text bs)) with
  | Answers r =>
      exists b : bool,
        fst (check_usercred instance channel_name password w) = Ok b /\
        (b = true <-> status_code r = 200%Z)
  | Fails e =>
      fst (check_usercred instance channel_name password w) =
      Exc (RequestException e)
  end.
Proof.
  intros H. split; [now apply sent_by_check_usercred|].
  rewrite check_usercred_run, H. cbv zeta.
  destruct (answer w _) as [r|e]; [|reflexivity].
  eexists; split; [reflexivity | apply Z.eqb_eq].
Qed.

Lemma check_usercred_status_witness :
  (exists b : bool,
     fst (check_usercred example_com alice secret (idle (answering 200 None))) = Ok b /\
     (b = true <-> 200%Z = 200%Z)) /\
  (exists b : bool,
     fst (check_usercred example_com alice secret (idle (answering 401 None))) = Ok b /\
     (b = true <-> 401%Z = 200%Z)) /\
  fst (check_usercred example_com alice secret (idle unreachable)) =
  Exc (RequestException ConnectionError).
Proof.
  split; [|split].
  - exact (proj2 (check_usercred_status example_com alice secret
                    (idle (answering 200 None))
                    (list_byte_of_string "alice:secret") eq_refl)).
  - exact (proj2 (check_usercred_status example_com alice secret
                    (idle (answering 401 None))
                    (list_byte_of_string "alice:secret") eq_refl)).
  - exact (proj2 (check_usercred_status example_com alice secret
                    (idle unreachable)
                    (list_byte_of_string "alice:secret") eq_refl)).
Defined.

(** C3 as stated fails: on a network failure the check raises. *)
Lemma check_usercred_network_failure_raises :
  fst (check_usercred example_com alice secret (idle unreachable)) =
    Exc (RequestException ConnectionError) /\
  fst (check_usercred example_com alice secret (idle unreachable)) <> Ok false.
Proof. split; [reflexivity | discriminate]. Qed.

(** Credentials with a lone surrogate have no UTF-8 form: nothing is sent. *)
Example check_usercred_surrogate :
  check_usercred example_com [0xDC80%N] secret (idle (answering 200 None)) =
  (Exc UnicodeEncodeError, idle (answering 200 None)).
Proof. reflexivity. Qed.

(** C5.  The authorization header that [check_usercred] sends is ["Basic "]
    followed by the Base64 text of the UTF-8 bytes of [name + ":" +
    password] (a text that reads back, through Base64 and UTF-8, as
    [name + ":" + password]); for [alice] and [secret] it is
    [Basic YWxpY2U6c2VjcmV0]. *)
Theorem check_usercred_authorization :
  (forall (instance channel_name password : str) (w : world) (bs : bytes),
     utf8_encode (channel_name ++ str_lit ":" ++ password) = Some bs ->
     map rq_headers (sent_by (check_usercred instance channel_name password) w) =
       [[(str_lit "authorization", str_lit "Basic " ++ b64_text bs)]] /\
     b64decode (b64encode bs) = Some bs /\
     utf8_decode bs = Some (channel_name ++ str_lit ":" ++ password)) /\
  (forall (instance : str) (w : world),
     map rq_headers (sent_by (check_usercred instance alice secret) w) =
     [[(str_lit "authorization", str_lit "Basic YWxpY2U6c2VjcmV0")]]).
Proof.
  split.
  - intros instance channel_name password w bs H.
    rewrite (sent_by_check_usercred instance _ _ w bs H).
    split; [reflexivity|].
    split; [apply b64decode_b64encode | now apply utf8_decode_encode].
  - intros instance w.
    now rewrite (sent_by_check_usercred instance alice secret w
                   (list_byte_of_string "alice:secret") eq_refl).
Qed.

(** The encoders on known vectors: RFC 4648, section 10, and RFC 3629. *)
Example b64encode_rfc4648 :
  map (fun s => b64encode (list_byte_of_string s))
      [""; "f"; "fo"; "foo"; "foob"; "fooba"; "foobar"]%string
  = map list_byte_of_string
      [""; "Zg=="; "Zm8="; "Zm9v"; "Zm9vYg=="; "Zm9vYmE="; "Zm9vYmFy"]%string.
Proof. reflexivity. Qed.

Example utf8_encode_vectors :
  map utf8_encode [[0x41; 0x2262; 0x391; 0x2E]; [0xD55C; 0xAD6D; 0xC5B4];
                   [0x233B4]; [0xD800]]%N
  = [Some [x41; xe2; x89; xa2; xce; x91; x2e];
     Some [xed; x95; x9c; xea; xb5; xad; xec; x96; xb4];
     Some [xf0; xa3; x8e; xb4]; None].
Proof. reflexivity. Qed.

(* ================================================================== *)
(** * The sanitization in [main] *)

(** C6.  Of an entered domain, [main] strips a leading [http://] or
    [https://] and everything from the first [/] on; of an entered channel
    name it strips one leading [@]; the account name of a run is made of
    the two strings so sanitized.  So [https://example.com/foo/bar] becomes
    [example.com] and [@alice] becomes [alice]. *)
Theorem sanitization_of_entered_strings (prompt : str) (w w' : world)
    (entered : str) :
  input prompt w = (Ok entered, w') ->
  sanitize_instance entered = spec_cut_path (spec_strip_scheme entered) /\
  sanitize_channel entered = spec_strip_at entered /\
  (forall (w0 w0' : world) (account_name : str),
     main w0 = (Ok account_name, w0') ->
     exists entered_domain rest entered_channel rest',
       readline (stdin w0) = Some (entered_domain, rest) /\
       readline rest = Some (entered_channel, rest') /\
       account_name =
         str_lit "@" ++ spec_strip_at entered_channel ++ str_lit "@"
         ++ spec_cut_path (spec_strip_scheme entered_domain)) /\
  sanitize_instance (str_lit "https://example.com/foo/bar") = str_lit "example.com" /\
  sanitize_channel (str_lit "@alice") = str_lit "alice".
Proof.
  intros H. apply input_line in H.
  split; [now apply sanitize_instance_line|].
  split; [apply re_sub_at|].
  split; [|split; reflexivity].
  intros w0 w0' account_name H0.
  apply main_ok in H0
    as (? & _ & _ & _ & ? & _ & _ & _ & _ & _ & _ & _ & ->
        & d & rest & c & rest' & Hd & Hc & -> & ->).
  exists d, rest, c, rest'. repeat (split; [assumption|]).
  unfold account_name_of, sanitize_channel. change (str_lit "") with (@nil codepoint).
  rewrite re_sub_at, sanitize_instance_line by exact (readline_line _ _ _ Hd).
  reflexivity.
Qed.

Lemma sanitization_of_entered_strings_witness :
  sanitize_instance (str_lit "http://hub.example.org/channel/alice") =
    spec_cut_path (spec_strip_scheme (str_lit "http://hub.example.org/channel/alice")) /\
  sanitize_channel (str_lit "http://hub.example.org/channel/alice") =
    spec_strip_at (str_lit "http://hub.example.org/channel/alice") /\
  sanitize_instance (str_lit "https://example.com/foo/bar") = str_lit "example.com" /\
  sanitize_channel (str_lit "@alice") = str_lit "alice".
Proof.
  pose proof (sanitization_of_entered_strings instance_prompt
                (typing "http://hub.example.org/channel/alice" "@alice" "secret" hub)
                _ (str_lit "http://hub.example.org/channel/alice") eq_refl)
    as (H1 & H2 & _ & H3 & H4).
  exact (conj H1 (conj H2 (conj H3 H4))).
Defined.

Example sanitize_instance_examples :
  map (fun s => sanitize_instance (str_lit s))
      ["example.com"; "http://example.com"; "https://example.com/";
       "http://https://x/y"; "HTTP://x"; "httpss://x"; "example.com/a/b"; "/"; ""]%string
  = map str_lit
      ["example.com"; "example.com"; "example.com";
       "https:"; "HTTP:"; "httpss:"; "example.com"; ""; ""]%string.
Proof. reflexivity. Qed.

Example sanitize_channel_examples :
  map (fun s => sanitize_channel (str_lit s)) ["alice"; "@alice"; "@@alice"; "a@b"; ""]%string
  = map str_lit ["alice"; "alice"; "@alice"; "a@b"; ""]%string.
Proof. reflexivity. Qed.

(** C9.  The sanitization of the domain is idempotent on every entered
    string. *)
Theorem sanitize_instance_idempotent (prompt : str) (w w' : world)
    (entered : str) :
  input prompt w = (Ok entered, w') ->
  sanitize_instance (sanitize_instance entered) = sanitize_instance entered.
Proof. intros H. apply sanitize_instance_line_fixed, (input_line _ _ _ _ H). Qed.

Lemma sanitize_instance_idempotent_witness :
  sanitize_instance (sanitize_instance (str_lit "http://https://x/y")) =
  sanitize_instance (str_lit "http://https://x/y").
Proof.
  exact (sanitize_instance_idempotent instance_prompt
           (typing "http://https://x/y" "@alice" "secret" hub)
           _ (str_lit "http://https://x/y") eq_refl).
Defined.

(** [input] never gives a string with a line feed inside.  On such a
    string [$] can hold before a line feed that a first pass has brought to
    the end, and a second pass cuts further. *)
Remark sanitize_instance_across_lines :
  let s := str_lit "a/b" ++ [LF] ++ str_lit "/c" in
  sanitize_instance s = str_lit "a/b" ++ [LF] /\
  sanitize_instance (sanitize_instance s) = str_lit "a" ++ [LF].
Proof. split; reflexivity. Qed.

(* ================================================================== *)
(** * The orchestrator *)

Section Bailing.

Variable bc cn : str -> M bool.
Variable cu : str -> str -> str -> M bool.
Variable w w1 : world.
Variable instance : str.
Hypothesis Hinstance : stage_instance w = (Ok instance, w1).

Lemma main_with_unreachable (w2 : world) :
  bc instance w1 = (Ok false, w2) ->
  main_with bc cn cu w = bailed unreachable_message w2.
Proof.
  intros H. rewrite main_with_stages. unfold main_stages.
  now rewrite Hinstance, H.
Qed.

Lemma main_with_mismatch (w2 w3 : world) :
  bc instance w1 = (Ok true, w2) ->
  cn instance w2 = (Ok false, w3) ->
  main_with bc cn cu w = bailed mismatch_message w3.
Proof.
  intros H2 H3. rewrite main_with_stages. unfold main_stages.
  now rewrite Hinstance, H2, H3.
Qed.

Lemma main_with_unauthorized (w2 w3 w4 w5 : world) (channel_name pword : str) :
  bc instance w1 = (Ok true, w2) ->
  cn instance w2 = (Ok true, w3) ->
  stage_credentials instance w3 = (Ok (channel_name, pword), w4) ->
  cu instance channel_name pword w4 = (Ok false, w5) ->
  main_with bc cn cu w = bailed unauthorized_message w5.
Proof.
  intros H2 H3 H4 H5. rewrite main_with_stages. unfold main_stages.
  now rewrite Hinstance, H2, H3, H4, H5.
Qed.

End Bailing.

(** C7.  In a run in which [basic_check] returns false, [main] prints its
    message and the process ends with status 1; the other two checks are
    not called: whatever stands in their place, the run is the same, and
    the host-meta request is the only one made. *)
Theorem main_bails_when_unreachable (cn : str -> M bool)
    (cu : str -> str -> str -> M bool) (w w1 w2 : world) (instance : str) :
  stage_instance w = (Ok instance, w1) ->
  basic_check instance w1 = (Ok false, w2) ->
  main_with basic_check cn cu w =
    (Exc (SystemExit 1), logged (EvStdout (unreachable_message ++ [LF])) w2) /\
  main w = main_with basic_check cn cu w /\
  run w = (1%Z, logged (EvStdout (unreachable_message ++ [LF])) w2) /\
  fst (run w) <> 0%Z /\
  trace (snd (main w)) =
    trace w ++ banner ++
    [EvStdout instance_prompt; EvHttp (host_meta_request instance);
     EvStdout (unreachable_message ++ [LF])] /\
  sent_by main w = [host_meta_request instance].
Proof.
  intros H1 H2.
  pose proof (main_with_unreachable basic_check cn cu w w1 instance H1 w2 H2) as Hcn.
  pose proof (main_with_unreachable basic_check check_nodeinfo check_usercred
                w w1 instance H1 w2 H2) as Hmain.
  fold main in Hmain. unfold bailed in Hcn, Hmain.
  assert (Ht : trace (snd (main w)) =
               trace w ++ banner ++
               [EvStdout instance_prompt; EvHttp (host_meta_request instance);
                EvStdout (unreachable_message ++ [LF])]).
  { rewrite Hmain. cbn [snd logged trace].
    apply stage_instance_ok in H1 as (_ & _ & _ & _ & _ & Ht1).
    rewrite basic_check_run in H2.
    destruct (answer w1 _); injection H2 as _ <-; cbn [logged trace];
      rewrite Ht1, <- !app_assoc; reflexivity. }
  split; [exact Hcn|]. split; [now rewrite Hmain, Hcn|].
  split; [unfold run; now rewrite Hmain|].
  split; [unfold run; rewrite Hmain; discriminate|].
  split; [exact Ht|].
  unfold sent_by. rewrite Ht, skipn_length_app. reflexivity.
Qed.

Lemma main_bails_when_unreachable_witness :
  run failing_hub_world =
    (1%Z,
     World (str_lit "@alice" ++ [LF]) (str_lit "secret" ++ [LF])
       (answering 500 None)
       (banner ++
        [EvStdout instance_prompt; EvHttp (host_meta_request example_com);
         EvStdout (unreachable_message ++ [LF])])) /\
  sent_by main failing_hub_world = [host_meta_request example_com].
Proof.
  pose proof (main_bails_when_unreachable check_nodeinfo check_usercred
                failing_hub_world _ _ example_com eq_refl eq_refl) as H.
  split; [exact (proj1 (proj2 (proj2 H))) | exact (proj2 (proj2 (proj2 (proj2 (proj2 H)))))].
Defined.

(** C8.  [main] builds the account name only in a run in which the three
    checks have returned true, one after the other, and it is then ["@"]
    followed by the sanitized channel name, ["@"] and the sanitized domain;
    in a run in which the three checks return true it does build it; in a
    run in which one of the checks returns false, [main] ends in [exit(1)]
    and builds no account name. *)
Theorem account_name_only_after_three_checks (w : world) :
  (forall (account_name : str) (w' : world),
     main w = (Ok account_name, w') ->
     exists instance w1 w2 w3 channel_name pword w4,
       stage_instance w = (Ok instance, w1) /\
       basic_check instance w1 = (Ok true, w2) /\
       check_nodeinfo instance w2 = (Ok true, w3) /\
       stage_credentials instance w3 = (Ok (channel_name, pword), w4) /\
       check_usercred instance channel_name pword w4 = (Ok true, w') /\
       account_name = str_lit "@" ++ channel_name ++ str_lit "@" ++ instance /\
       exists entered_domain rest entered_channel rest',
         readline (stdin w) = Some (entered_domain, rest) /\
         readline rest = Some (entered_channel, rest') /\
         instance = sanitize_instance entered_domain /\
         channel_name = sanitize_channel entered_channel) /\
  (forall (instance channel_name pword : str) (w1 w2 w3 w4 w5 : world),
     stage_instance w = (Ok instance, w1) ->
     basic_check instance w1 = (Ok true, w2) ->
     check_nodeinfo instance w2 = (Ok true, w3) ->
     stage_credentials instance w3 = (Ok (channel_name, pword), w4) ->
     check_usercred instance channel_name pword w4 = (Ok true, w5) ->
     main w =
       (Ok (str_lit "@" ++ channel_name ++ str_lit "@" ++ instance), w5)) /\
  (forall (instance : str) (w1 : world),
     stage_instance w = (Ok instance, w1) ->
     (forall w2,
        basic_check instance w1 = (Ok false, w2) ->
        fst (main w) = Exc (SystemExit 1)) /\
     (forall w2 w3,
        basic_check instance w1 = (Ok true, w2) ->
        check_nodeinfo instance w2 = (Ok false, w3) ->
        fst (main w) = Exc (SystemExit 1)) /\
     (forall w2 w3 channel_name pword w4 w5,
        basic_check instance w1 = (Ok true, w2) ->
        check_nodeinfo instance w2 = (Ok true, w3) ->
        stage_credentials instance w3 = (Ok (channel_name, pword), w4) ->
        check_usercred instance channel_name pword w4 = (Ok false, w5) ->
        fst (main w) = Exc (SystemExit 1))).
Proof.
  split; [|split].
  - intros account_name w' H. exact (main_ok w w' account_name H).
  - intros instance channel_name pword w1 w2 w3 w4 w5 H1 H2 H3 H4 H5.
    unfold main. rewrite main_with_stages. unfold main_stages.
    now rewrite H1, H2, H3, H4, H5.
  - intros instance w1 H1. unfold main. repeat split.
    + intros w2 H2.
      now rewrite (main_with_unreachable _ _ _ w w1 instance H1 w2 H2).
    + intros w2 w3 H2 H3.
      now rewrite (main_with_mismatch _ _ _ w w1 instance H1 w2 w3 H2 H3).
    + intros w2 w3 channel_name pword w4 w5 H2 H3 H4 H5.
      now rewrite (main_with_unauthorized _ _ _ w w1 instance H1
                     w2 w3 w4 w5 channel_name pword H2 H3 H4 H5).
Qed.

Lemma account_name_only_after_three_checks_witness :
  fst (main example_world) = Ok (str_lit "@alice@example.com") /\
  (exists instance w1 w2 w3 channel_name pword w4,
     stage_instance example_world = (Ok instance, w1) /\
     basic_check instance w1 = (Ok true, w2) /\
     check_nodeinfo instance w2 = (Ok true, w3) /\
     stage_credentials instance w3 = (Ok (channel_name, pword), w4) /\
     check_usercred instance channel_name pword w4 =
       (Ok true, snd (main example_world)) /\
     str_lit "@alice@example.com" =
       str_lit "@" ++ channel_name ++ str_lit "@" ++ instance /\
     exists entered_domain rest entered_channel rest',
       readline (stdin example_world) = Some (entered_domain, rest) /\
       readline rest = Some (entered_channel, rest') /\
       instance = sanitize_instance entered_domain /\
       channel_name = sanitize_channel entered_channel) /\
  fst (main failing_hub_world) = Exc (SystemExit 1) /\
  fst (main other_software_world) = Exc (SystemExit 1) /\
  fst (main rejected_world) = Exc (SystemExit 1).
Proof.
  split; [|split; [|split; [|split]]].
  - exact (f_equal fst
             (proj1 (proj2 (account_name_only_after_three_checks example_world))
                example_com alice secret _ _ _ _ _
                eq_refl eq_refl eq_refl eq_refl eq_refl)).
  - exact (proj1 (account_name_only_after_three_checks example_world)
             (str_lit "@alice@example.com") (snd (main example_world)) eq_refl).
  - exact (proj1 (proj2 (proj2 (account_name_only_after_three_checks
                                  failing_hub_world))
                    example_com _ eq_refl) _ eq_refl).
  - exact (proj1 (proj2 (proj2 (proj2 (account_name_only_after_three_checks
                                         other_software_world))
                           example_com _ eq_refl)) _ _ eq_refl eq_refl).
  - exact (proj2 (proj2 (proj2 (proj2 (account_name_only_after_three_checks
                                         rejected_world))
                           example_com _ eq_refl)) _ _ alice secret _ _
             eq_refl eq_refl eq_refl eq_refl).
Defined.

(** The run of [example_world], end to end. *)
Example main_example :
  fst (main example_world) = Ok (str_lit "@alice@example.com") /\
  fst (run example_world) = 0%Z /\
  sent_by main example_world =
    [host_meta_request example_com; nodeinfo_request example_com;
     usercheck_request example_com (str_lit "Basic YWxpY2U6c2VjcmV0")].
Proof. repeat split. Qed.

(** The three ways to bail, each with status 1: the hub is not reachable,
    the hub runs other software, the hub turns the credentials down. *)
Example main_bails :
  map (fun remote => fst (run (typing "example.com" "alice" "secret" remote)))
      [answering 500 None;
       answering 200 (Some (nodeinfo_of (str_lit "mastodon")));
       (fun tr rq => match rq_method rq with
                     | GET => hub tr rq
                     | POST => Answers (Response 401 None)
                     end)]
  = [1%Z; 1%Z; 1%Z].
Proof. reflexivity. Qed.

(** C10.  The account name does not depend on the password: two runs of
    [main] with the same standard input that both build an account name
    build the same one, whatever is typed as password in each. *)
Theorem account_name_independent_of_password (w1 w2 w1' w2' : world)
    (account_name1 account_name2 : str) :
  stdin w1 = stdin w2 ->
  main w1 = (Ok account_name1, w1') ->
  main w2 = (Ok account_name2, w2') ->
  account_name1 = account_name2.
Proof.
  intros Hin H1 H2.
  apply main_ok in H1
    as (i1 & _ & _ & _ & c1 & _ & _ & _ & _ & _ & _ & _ & ->
        & d1 & r1 & e1 & r1' & Hd1 & He1 & -> & ->).
  apply main_ok in H2
    as (i2 & _ & _ & _ & c2 & _ & _ & _ & _ & _ & _ & _ & ->
        & d2 & r2 & e2 & r2' & Hd2 & He2 & -> & ->).
  rewrite Hin in Hd1. rewrite Hd1 in Hd2. injection Hd2 as <- <-.
  rewrite He1 in He2. injection He2 as <- _. reflexivity.
Qed.

Lemma account_name_independent_of_password_witness :
  tty example_world <> tty other_password_world /\
  fst (main example_world) = Ok (str_lit "@alice@example.com") /\
  fst (main other_password_world) = Ok (str_lit "@alice@example.com") /\
  str_lit "@alice@example.com" = str_lit "@alice@example.com".
Proof.
  split; [discriminate|]. split; [reflexivity|]. split; [reflexivity|].
  exact (account_name_independent_of_password
           example_world other_password_world _ _ _ _
           eq_refl eq_refl eq_refl).
Defined.

(* ================================================================== *)
(** * Further properties of the checks and of [main] *)

(** X1.  On a response other than 404 whose body parses, [check_nodeinfo]
    does not return false when the field is not there: it raises
    [TypeError] when the document, or its [software] entry, is not a
    [dict], and [KeyError] when the key [software], or the key [name]
    under it, is missing. *)
Theorem check_nodeinfo_missing_field_raises (instance : str) (w : world)
    (r : response) (nodeinfo : json) :
  answer w (nodeinfo_request instance) = Answers r ->
  status_code r <> 404%Z ->
  json_body r = Some nodeinfo ->
  (is_dict nodeinfo = false -> fst (check_nodeinfo instance w) = Exc TypeError) /\
  (forall items,
     nodeinfo = JDict items ->
     match dict_get items (str_lit "software") with
     | None =>
         fst (check_nodeinfo instance w) = Exc (KeyError (str_lit "software"))
     | Some (JDict items') =>
         dict_get items' (str_lit "name") = None ->
         fst (check_nodeinfo instance w) = Exc (KeyError (str_lit "name"))
     | Some _ => fst (check_nodeinfo instance w) = Exc TypeError
     end).
Proof.
  intros Hr H404 Hb. rewrite check_nodeinfo_run, Hr. cbn [fst].
  unfold nodeinfo_verdict, response_json. apply Z.eqb_neq in H404.
  rewrite H404, Hb. split.
  - destruct nodeinfo; try reflexivity. discriminate.
  - intros items ->. cbn [getitem].
    destruct (dict_get items (str_lit "software")) as [software|]; [|reflexivity].
    destruct software; try reflexivity.
    intros Hn. cbn [getitem]. now rewrite Hn.
Qed.

Lemma check_nodeinfo_missing_field_raises_witness :
  fst (check_nodeinfo example_com (idle (answering 200 (Some (JDict []))))) =
    Exc (KeyError (str_lit "software")) /\
  fst (check_nodeinfo example_com
         (idle (answering 200 (Some (JDict [(str_lit "software", JDict [])]))))) =
    Exc (KeyError (str_lit "name")).
Proof.
  split.
  - exact (proj2 (check_nodeinfo_missing_field_raises example_com
                    (idle (answering 200 (Some (JDict []))))
                    (Response 200 (Some (JDict []))) (JDict [])
                    eq_refl ltac:(discriminate) eq_refl) [] eq_refl).
  - exact (proj2 (check_nodeinfo_missing_field_raises example_com
                    (idle (answering 200 (Some (JDict [(str_lit "software", JDict [])]))))
                    (Response 200 (Some (JDict [(str_lit "software", JDict [])])))
                    (JDict [(str_lit "software", JDict [])])
                    eq_refl ltac:(discriminate) eq_refl)
             [(str_lit "software", JDict [])] eq_refl eq_refl).
Defined.

(** X2.  When [check_nodeinfo] gives a verdict at all: it returns a
    boolean exactly when the request is answered and either the status is
    404 or the body parses to a [dict] whose [software] entry is a [dict]
    with a [name]; in every other case (transport failure, body that does
    not parse, other shape) it raises. *)
Theorem check_nodeinfo_gives_a_verdict (instance : str) (w : world) :
  (exists b : bool, fst (check_nodeinfo instance w) = Ok b) <->
  exists r : response,
    answer w (nodeinfo_request instance) = Answers r /\
    (status_code r = 404%Z \/
     exists items items' name,
       json_body r = Some (JDict items) /\
       dict_get items (str_lit "software") = Some (JDict items') /\
       dict_get items' (str_lit "name") = Some name).
Proof.
  rewrite check_nodeinfo_run.
  destruct (answer w (nodeinfo_request instance)) as [r|e]; cbn [fst].
  2:{ split; [intros (b & H); discriminate | intros (r & H & _); discriminate]. }
  unfold nodeinfo_verdict, response_json. split.
  - intros (b & H). exists r. split; [reflexivity|].
    destruct (Z.eqb_spec (status_code r) 404) as [E|E]; [now left | right].
    destruct (json_body r) as [nodeinfo|]; [|discriminate].
    destruct nodeinfo as [| | | | |?|items]; try discriminate. cbn [getitem] in H.
    destruct (dict_get items (str_lit "software")) as [software|] eqn:Hs;
      [|discriminate].
    destruct software as [| | | | |?|items']; try discriminate. cbn [getitem] in H.
    destruct (dict_get items' (str_lit "name")) as [name|] eqn:Hn; [|discriminate].
    exists items, items', name. repeat split; assumption || reflexivity.
  - intros (r' & Hr & H). injection Hr as <-.
    destruct H as [E | (items & items' & name & Hb & Hs & Hn)].
    + rewrite E. now exists true.
    + destruct (Z.eqb (status_code r) 404); [now exists true|].
      rewrite Hb. cbn [getitem]. rewrite Hs. cbn [getitem]. rewrite Hn.
      now eexists.
Qed.

(** The world a check leaves. *)
Lemma basic_check_world (instance : str) (w : world) :
  snd (basic_check instance w) = logged (EvHttp (host_meta_request instance)) w.
Proof. rewrite basic_check_run. now destruct (answer w _). Qed.

Lemma check_nodeinfo_world (instance : str) (w : world) :
  snd (check_nodeinfo instance w) = logged (EvHttp (nodeinfo_request instance)) w.
Proof. rewrite check_nodeinfo_run. now destruct (answer w _). Qed.

Lemma check_usercred_world (instance channel_name password : str) (w : world) :
  snd (check_usercred instance channel_name password w) =
  match utf8_encode (channel_name ++ str_lit ":" ++ password) with
  | Some bs =>
      logged (EvHttp (usercheck_request instance (str_lit "Basic " ++ b64_text bs))) w
  | None => w
  end.
Proof.
  rewrite check_usercred_run.
  destruct (utf8_encode _); [|reflexivity]. cbv zeta. now destruct (answer w _).
Qed.

(** X3.  Each check sends its one request and does nothing else: nothing
    is printed, nothing is read.  The two GET requests carry no body, no
    header and no parameter; [check_usercred] sends one POST, with the one
    header made of its credentials, or nothing when the credentials have no
    UTF-8 form. *)
Theorem checks_only_send_their_request (instance channel_name password : str)
    (w : world) :
  snd (basic_check instance w) =
    World (stdin w) (tty w) (server w)
      (trace w ++ [EvHttp (Request GET
         (str_lit "https://" ++ instance ++ str_lit "/.well-known/host-meta")
         None [] [])]) /\
  snd (check_nodeinfo instance w) =
    World (stdin w) (tty w) (server w)
      (trace w ++ [EvHttp (Request GET
         (str_lit "https://" ++ instance ++ str_lit "/nodeinfo/2.0")
         None [] [])]) /\
  snd (check_usercred instance channel_name password w) =
    World (stdin w) (tty w) (server w)
      (trace w ++
       match utf8_encode (channel_name ++ str_lit ":" ++ password) with
       | Some bs =>
           [EvHttp (Request POST
              (str_lit "https://" ++ instance
               ++ str_lit "/api/z/1.0/channel/export/basic")
              (Some [])
              [(str_lit "authorization", str_lit "Basic " ++ b64_text bs)]
              [(str_lit "sections", str_lit "channel");
               (str_lit "posts", str_lit "0")])]
       | None => []
       end).
Proof.
  split; [apply basic_check_world|]. split; [apply check_nodeinfo_world|].
  rewrite check_usercred_world.
  destruct (utf8_encode _) as [bs|]; [reflexivity|].
  destruct w; cbn. now rewrite app_nil_r.
Qed.

Lemma requests_of_app (a b : list event) :
  requests_of (a ++ b) = requests_of a ++ requests_of b.
Proof.
  induction a as [|[t|t|rq] a IH]; cbn [app requests_of]; [reflexivity| | |];
    now rewrite ?IH.
Qed.

Lemma sent_by_trace {A} (m : M A) (w : world) (new : list event) :
  trace (snd (m w)) = trace w ++ new -> sent_by m w = requests_of new.
Proof. intros H. unfold sent_by. now rewrite H, skipn_length_app. Qed.

Lemma basic_check_ok (instance : str) (w w' : world) (o : outcome bool) :
  basic_check instance w = (o, w') ->
  w' = logged (EvHttp (host_meta_request instance)) w.
Proof. intros H. rewrite <- basic_check_world. now rewrite H. Qed.

Lemma check_nodeinfo_ok (instance : str) (w w' : world) (o : outcome bool) :
  check_nodeinfo instance w = (o, w') ->
  w' = logged (EvHttp (nodeinfo_request instance)) w.
Proof. intros H. rewrite <- check_nodeinfo_world. now rewrite H. Qed.

Lemma stage_instance_world (w w1 : world) (o : outcome str) :
  stage_instance w = (o, w1) ->
  tty w1 = tty w /\ server w1 = server w /\
  trace w1 = trace w ++ banner ++ [EvStdout instance_prompt].
Proof.
  unfold stage_instance.
  destruct (readline (stdin w)) as [[entered rest]|];
    intros H; injection H as _ <-; repeat split.
Qed.

(** X4.  In a run in which [basic_check] returns true and
    [check_nodeinfo] returns false, [main] prints its second message and
    the process ends with status 1, before anything is asked for: the
    channel line stays on standard input, the terminal is not touched, and
    [check_usercred] is not called (whatever stands in its place, the run
    is the same). *)
Theorem main_bails_on_other_software (cu : str -> str -> str -> M bool)
    (w w1 w2 w3 : world) (instance : str) :
  stage_instance w = (Ok instance, w1) ->
  basic_check instance w1 = (Ok true, w2) ->
  check_nodeinfo instance w2 = (Ok false, w3) ->
  main_with basic_check check_nodeinfo cu w =
    (Exc (SystemExit 1), logged (EvStdout (mismatch_message ++ [LF])) w3) /\
  main w = main_with basic_check check_nodeinfo cu w /\
  fst (run w) = 1%Z /\
  stdin (snd (main w)) = stdin w1 /\
  tty (snd (main w)) = tty w /\
  trace (snd (main w)) =
    trace w ++ banner ++
    [EvStdout instance_prompt; EvHttp (host_meta_request instance);
     EvHttp (nodeinfo_request instance); EvStdout (mismatch_message ++ [LF])].
Proof.
  intros H1 H2 H3.
  pose proof (main_with_mismatch basic_check check_nodeinfo cu
                w w1 instance H1 w2 w3 H2 H3) as Hcu.
  pose proof (main_with_mismatch basic_check check_nodeinfo check_usercred
                w w1 instance H1 w2 w3 H2 H3) as Hmain.
  fold main in Hmain. unfold bailed in Hcu, Hmain.
  apply stage_instance_world in H1 as (Ht & _ & Htr).
  apply basic_check_ok in H2 as ->. apply check_nodeinfo_ok in H3 as ->.
  split; [exact Hcu|]. split; [now rewrite Hmain, Hcu|].
  unfold run. rewrite Hmain. cbn [fst snd exit_status logged stdin tty trace].
  repeat split; try assumption.
  rewrite Htr, <- !app_assoc. reflexivity.
Qed.

Lemma main_bails_on_other_software_witness :
  fst (run other_software_world) = 1%Z /\
  stdin (snd (main other_software_world)) = str_lit "@alice" ++ [LF] /\
  tty (snd (main other_software_world)) = str_lit "secret" ++ [LF].
Proof.
  pose proof (main_bails_on_other_software check_usercred
                other_software_world _ _ _ example_com
                eq_refl eq_refl eq_refl) as (_ & _ & H1 & H2 & H3 & _).
  exact (conj H1 (conj H2 H3)).
Defined.

Lemma check_usercred_returns (instance channel_name password : str)
    (w w' : world) (b : bool) :
  check_usercred instance channel_name password w = (Ok b, w') ->
  exists bs r,
    utf8_encode (channel_name ++ str_lit ":" ++ password) = Some bs /\
    answer w (usercheck_request instance (str_lit "Basic " ++ b64_text bs)) =
      Answers r /\
    b = Z.eqb (status_code r) 200 /\
    w' = logged (EvHttp (usercheck_request instance
                           (str_lit "Basic " ++ b64_text bs))) w.
Proof.
  rewrite check_usercred_run.
  destruct (utf8_encode _) as [bs|]; [|discriminate]. cbv zeta.
  destruct (answer w _) as [r|e] eqn:E; [|discriminate].
  intros H; injection H as <- <-. now exists bs, r.
Qed.

(** X5.  In a run in which the first two checks return true and
    [check_usercred] returns false, [main] prints its third message last
    and the process ends with status 1, after the three requests. *)
Theorem main_bails_on_rejected_credentials (w w1 w2 w3 w4 w5 : world)
    (instance channel_name pword : str) :
  stage_instance w = (Ok instance, w1) ->
  basic_check instance w1 = (Ok true, w2) ->
  check_nodeinfo instance w2 = (Ok true, w3) ->
  stage_credentials instance w3 = (Ok (channel_name, pword), w4) ->
  check_usercred instance channel_name pword w4 = (Ok false, w5) ->
  main w = (Exc (SystemExit 1),
            logged (EvStdout (unauthorized_message ++ [LF])) w5) /\
  fst (run w) = 1%Z /\
  exists bs,
    utf8_encode (channel_name ++ str_lit ":" ++ pword) = Some bs /\
    trace (snd (main w)) =
      trace w ++ banner ++
      [EvStdout instance_prompt; EvHttp (host_meta_request instance);
       EvHttp (nodeinfo_request instance);
       EvStdout (channel_prompt instance); EvTty password_prompt; EvTty [LF];
       EvHttp (usercheck_request instance (str_lit "Basic " ++ b64_text bs));
       EvStdout (unauthorized_message ++ [LF])].
Proof.
  intros H1 H2 H3 H4 H5.
  pose proof (main_with_unauthorized basic_check check_nodeinfo check_usercred
                w w1 instance H1 w2 w3 w4 w5 channel_name pword H2 H3 H4 H5)
    as Hmain.
  fold main in Hmain. unfold bailed in Hmain.
  split; [exact Hmain|]. split; [unfold run; now rewrite Hmain|].
  apply check_usercred_returns in H5 as (bs & r & Hbs & _ & _ & ->).
  exists bs. split; [exact Hbs|].
  rewrite Hmain. cbn [snd logged trace].
  apply stage_credentials_ok in H4 as (_ & _ & _ & _ & _ & ->).
  apply check_nodeinfo_ok in H3 as ->. apply basic_check_ok in H2 as ->.
  apply stage_instance_world in H1 as (_ & _ & Htr).
  cbn [logged trace]. rewrite Htr, <- !app_assoc. reflexivity.
Qed.

Lemma main_bails_on_rejected_credentials_witness :
  fst (main rejected_world) = Exc (SystemExit 1) /\
  fst (run rejected_world) = 1%Z.
Proof.
  pose proof (main_bails_on_rejected_credentials rejected_world _ _ _ _ _
                example_com alice secret
                eq_refl eq_refl eq_refl eq_refl eq_refl) as (H1 & H2 & _).
  split; [now rewrite H1 | exact H2].
Defined.

Lemma basic_check_raises (instance : str) (w w' : world) (e : exn) :
  basic_check instance w = (Exc e, w') -> exists re, e = RequestException re.
Proof.
  rewrite basic_check_run. destruct (answer w _) as [r|re]; [discriminate|].
  intros H; injection H as <- _. now exists re.
Qed.

Lemma check_nodeinfo_raises (instance : str) (w w' : world) (e : exn) :
  check_nodeinfo instance w = (Exc e, w') -> raised_by_check e = true.
Proof.
  rewrite check_nodeinfo_run. destruct (answer w _) as [r|re].
  - unfold nodeinfo_verdict, response_json.
    destruct (Z.eqb (status_code r) 404); [discriminate|].
    destruct (json_body r) as [nodeinfo|];
      [|intros H; injection H as <- _; reflexivity].
    destruct nodeinfo; cbn [getitem];
      try (intros H; injection H as <- _; reflexivity).
    destruct (dict_get items _) as [software|];
      [|intros H; injection H as <- _; reflexivity].
    destruct software; cbn [getitem];
      try (intros H; injection H as <- _; reflexivity).
    destruct (dict_get items0 _);
      [discriminate | intros H; injection H as <- _; reflexivity].
  - intros H; injection H as <- _. reflexivity.
Qed.

Lemma check_usercred_raises (instance channel_name password : str)
    (w w' : world) (e : exn) :
  check_usercred instance channel_name password w = (Exc e, w') ->
  raised_by_check e = true.
Proof.
  rewrite check_usercred_run.
  destruct (utf8_encode _); cbv zeta;
    [destruct (answer w _); [discriminate|]|];
    intros H; injection H as <- _; reflexivity.
Qed.

Lemma exit_status_raised {A} (e : exn) :
  raised_by_check e = true -> exit_status (@Exc A e) = 1%Z.
Proof. destruct e; cbn; congruence. Qed.

(** X6.  What a check raises leaves [main] as it is: the run ends where
    the check ended, with no message of [main], and the process ends with
    status 1. *)
Theorem main_propagates_what_a_check_raises (w w1 : world) (instance : str) :
  stage_instance w = (Ok instance, w1) ->
  (forall e w2,
     basic_check instance w1 = (Exc e, w2) ->
     main w = (Exc e, w2) /\ fst (run w) = 1%Z) /\
  (forall e w2 w3,
     basic_check instance w1 = (Ok true, w2) ->
     check_nodeinfo instance w2 = (Exc e, w3) ->
     main w = (Exc e, w3) /\ fst (run w) = 1%Z) /\
  (forall e w2 w3 w4 w5 channel_name pword,
     basic_check instance w1 = (Ok true, w2) ->
     check_nodeinfo instance w2 = (Ok true, w3) ->
     stage_credentials instance w3 = (Ok (channel_name, pword), w4) ->
     check_usercred instance channel_name pword w4 = (Exc e, w5) ->
     main w = (Exc e, w5) /\ fst (run w) = 1%Z).
Proof.
  intros H1. unfold run, main. split; [|split].
  - intros e w2 H2. rewrite main_with_stages. unfold main_stages.
    rewrite H1, H2. split; [reflexivity|]. cbn [fst].
    apply basic_check_raises in H2 as (re & ->). reflexivity.
  - intros e w2 w3 H2 H3. rewrite main_with_stages. unfold main_stages.
    rewrite H1, H2, H3. split; [reflexivity|]. cbn [fst].
    apply exit_status_raised. eapply check_nodeinfo_raises; eassumption.
  - intros e w2 w3 w4 w5 channel_name pword H2 H3 H4 H5.
    rewrite main_with_stages. unfold main_stages.
    rewrite H1, H2, H3, H4, H5. split; [reflexivity|]. cbn [fst].
    apply exit_status_raised. eapply check_usercred_raises; eassumption.
Qed.

Lemma main_propagates_what_a_check_raises_witness :
  main unreachable_world =
    (Exc (RequestException ConnectionError),
     World (str_lit "@alice" ++ [LF]) (str_lit "secret" ++ [LF]) unreachable
       (banner ++ [EvStdout instance_prompt;
                   EvHttp (host_meta_request example_com)])) /\
  fst (run unreachable_world) = 1%Z.
Proof.
  exact (proj1 (main_propagates_what_a_check_raises unreachable_world _
                  example_com eq_refl) _ _ eq_refl).
Defined.

(** X7.  With standard input at its end, [main] prints the banner and the
    prompt and ends in [EOFError]: no request is made, the status is 1. *)
Theorem main_at_end_of_input (w : world) :
  stdin w = [] ->
  main w =
    (Exc EOFError,
     World [] (tty w) (server w)
       (trace w ++ banner ++ [EvStdout instance_prompt])) /\
  sent_by main w = [] /\
  fst (run w) = 1%Z.
Proof.
  intros H.
  assert (Hm : main w =
               (Exc EOFError,
                World [] (tty w) (server w)
                  (trace w ++ banner ++ [EvStdout instance_prompt]))).
  { unfold main. rewrite main_with_stages. unfold main_stages, stage_instance.
    now rewrite H. }
  split; [exact Hm|]. split.
  - rewrite (sent_by_trace main w (banner ++ [EvStdout instance_prompt]));
      [reflexivity | now rewrite Hm].
  - unfold run. now rewrite Hm.
Qed.

Lemma main_at_end_of_input_witness :
  sent_by main (idle hub) = [] /\ fst (run (idle hub)) = 1%Z.
Proof. exact (proj2 (main_at_end_of_input (idle hub) eq_refl)). Defined.

Lemma stage_credentials_raises (instance : str) (w w' : world) (e : exn) :
  stage_credentials instance w = (Exc e, w') ->
  e = EOFError /\
  (readline (stdin w) = None \/ readline (tty w) = None) /\
  exists prompts,
    trace w' = trace w ++ prompts /\ requests_of prompts = [].
Proof.
  destruct w as [i t sv tr]. unfold stage_credentials. run_stage.
  destruct (readline i) as [[c rest]|]; run_stage.
  - destruct (readline t) as [[pw rest']|]; run_stage; [discriminate|].
    intros H; injection H as <- <-. split; [reflexivity|]. split; [now right|].
    eexists. split; reflexivity.
  - intros H; injection H as <- <-. split; [reflexivity|]. split; [now left|].
    eexists. split; reflexivity.
Qed.

(** X8.  When, the first two checks passed, the channel name or the
    password cannot be read, [main] ends in [EOFError] with status 1, and
    the POST is not made. *)
Theorem main_without_credentials (w w1 w2 w3 w4 : world) (instance : str)
    (e : exn) :
  stage_instance w = (Ok instance, w1) ->
  basic_check instance w1 = (Ok true, w2) ->
  check_nodeinfo instance w2 = (Ok true, w3) ->
  stage_credentials instance w3 = (Exc e, w4) ->
  (readline (stdin w1) = None \/ readline (tty w) = None) /\
  main w = (Exc EOFError, w4) /\
  sent_by main w = [host_meta_request instance; nodeinfo_request instance] /\
  fst (run w) = 1%Z.
Proof.
  intros H1 H2 H3 H4.
  pose proof (stage_credentials_raises _ _ _ _ H4) as (-> & Hr & l & Hl & Hn).
  assert (Hm : main w = (Exc EOFError, w4)).
  { unfold main. rewrite main_with_stages. unfold main_stages.
    now rewrite H1, H2, H3, H4. }
  apply stage_instance_world in H1 as (Ht & _ & Htr).
  apply basic_check_ok in H2 as ->. apply check_nodeinfo_ok in H3 as ->.
  cbn [logged stdin tty] in Hr. rewrite Ht in Hr.
  split; [exact Hr|]. split; [exact Hm|]. split.
  - rewrite (sent_by_trace main w
               (banner ++ [EvStdout instance_prompt;
                           EvHttp (host_meta_request instance);
                           EvHttp (nodeinfo_request instance)] ++ l)).
    + rewrite !requests_of_app, Hn. reflexivity.
    + rewrite Hm. cbn [snd]. rewrite Hl. cbn [logged trace].
      rewrite Htr, <- !app_assoc. reflexivity.
  - unfold run. now rewrite Hm.
Qed.

Lemma main_without_credentials_witness :
  fst (main no_password_world) = Exc EOFError /\
  sent_by main no_password_world =
    [host_meta_request example_com; nodeinfo_request example_com] /\
  fst (run no_password_world) = 1%Z.
Proof.
  pose proof (main_without_credentials no_password_world _ _ _ _ example_com
                EOFError eq_refl eq_refl eq_refl eq_refl) as (_ & H1 & H2 & H3).
  split; [now rewrite H1 | exact (conj H2 H3)].
Defined.

Lemma stage_instance_raises (w w1 : world) (e : exn) :
  stage_instance w = (Exc e, w1) -> e = EOFError /\ readline (stdin w) = None.
Proof.
  unfold stage_instance.
  destruct (readline (stdin w)) as [[entered rest]|]; [discriminate|].
  intros H; injection H as <- _. now split.
Qed.

Lemma check_usercred_sent (instance channel_name password : str)
    (w w' : world) (o : outcome bool) :
  check_usercred instance channel_name password w = (o, w') ->
  w' = w \/
  exists authorization,
    w' = logged (EvHttp (usercheck_request instance authorization)) w.
Proof.
  intros H. pose proof (check_usercred_world instance channel_name password w) as E.
  rewrite H in E. cbn [snd] in E.
  destruct (utf8_encode _); [right; eexists; exact E | now left].
Qed.

(** The requests of a run of [main] whose end is known. *)
Ltac count_requests Hm :=
  unfold sent_by; rewrite Hm; cbn [snd logged trace];
  repeat match goal with H : trace _ = _ |- _ => rewrite H end;
  repeat rewrite <- app_assoc; rewrite skipn_length_app;
  rewrite ?requests_of_app;
  repeat match goal with H : requests_of _ = _ |- _ => rewrite H end;
  try reflexivity.

(** X9.  The requests of a run of [main], in every case: none when no
    domain can be read; otherwise the host-meta request for the sanitized
    domain, then the nodeinfo request, then the POST, the run stopping
    after the first, the second or the third.  Whatever is entered, the
    first request is made: [main] turns no domain down by itself. *)
Theorem main_requests (w : world) :
  match readline (stdin w) with
  | None => sent_by main w = []
  | Some (entered, _) =>
      let instance := sanitize_instance entered in
      sent_by main w = [host_meta_request instance] \/
      sent_by main w = [host_meta_request instance; nodeinfo_request instance] \/
      exists authorization,
        sent_by main w =
        [host_meta_request instance; nodeinfo_request instance;
         usercheck_request instance authorization]
  end.
Proof.
  assert (Hm : main w = main_stages basic_check check_nodeinfo check_usercred w)
    by apply main_with_stages.
  unfold main_stages, bailed in Hm.
  destruct (stage_instance w) as [[instance|e] w1] eqn:E1.
  2:{ apply stage_instance_raises in E1 as Hr. destruct Hr as (_ & ->).
      apply stage_instance_world in E1 as (_ & _ & Htr).
      count_requests Hm. }
  destruct (stage_instance_ok _ _ _ E1) as (entered & -> & -> & _ & _ & Htr).
  cbv zeta. set (instance := sanitize_instance entered) in *.
  destruct (basic_check instance w1) as [[[|]|e] w2] eqn:E2;
    apply basic_check_ok in E2 as ->.
  2,3: left; count_requests Hm.
  destruct (check_nodeinfo instance _) as [[[|]|e] w3] eqn:E3;
    apply check_nodeinfo_ok in E3 as ->.
  2,3: right; left; count_requests Hm.
  destruct (stage_credentials instance _) as [[[channel_name pword]|e] w4] eqn:E4.
  2:{ right; left.
      apply stage_credentials_raises in E4 as (_ & _ & l & Hl & Hn).
      cbn [logged trace] in Hl. count_requests Hm. }
  apply stage_credentials_ok in E4 as (_ & _ & _ & _ & _ & Htr4).
  cbn [logged trace] in Htr4.
  destruct (check_usercred instance channel_name pword w4) as [o w5] eqn:E5.
  apply check_usercred_sent in E5 as [-> | (authorization & ->)].
  - right; left. destruct o as [[|]|e]; count_requests Hm.
  - right; right. exists authorization. destruct o as [[|]|e]; count_requests Hm.
Qed.

(** X10.  The process ends with status 0 when [main] has built the
    account name, and with status 1 in every other run. *)
Theorem run_status (w : world) :
  (fst (run w) = 0%Z /\ exists account_name, fst (main w) = Ok account_name) \/
  (fst (run w) = 1%Z /\ exists e, fst (main w) = Exc e).
Proof.
  unfold run.
  assert (Hm : main w = main_stages basic_check check_nodeinfo check_usercred w)
    by apply main_with_stages.
  destruct (main w) as [o w'] eqn:E. cbn [fst].
  destruct o as [account_name|e]; [left; split; [reflexivity | now eexists]|].
  right. split; [|now eexists].
  unfold main_stages, bailed in Hm.
  destruct (stage_instance w) as [[instance|e1] w1] eqn:E1.
  2:{ apply stage_instance_raises in E1 as (-> & _). now injection Hm as ->. }
  destruct (basic_check instance w1) as [[[|]|e2] w2] eqn:E2.
  2:{ now injection Hm as ->. }
  2:{ apply basic_check_raises in E2 as (re & ->). now injection Hm as ->. }
  destruct (check_nodeinfo instance w2) as [[[|]|e3] w3] eqn:E3.
  2:{ now injection Hm as ->. }
  2:{ apply check_nodeinfo_raises in E3. injection Hm as -> _.
      now apply exit_status_raised. }
  destruct (stage_credentials instance w3) as [[[channel_name pword]|e4] w4] eqn:E4.
  2:{ apply stage_credentials_raises in E4 as (-> & _). now injection Hm as ->. }
  destruct (check_usercred instance channel_name pword w4) as [[[|]|e5] w5] eqn:E5.
  - discriminate.
  - now injection Hm as ->.
  - apply check_usercred_raises in E5. injection Hm as -> _.
    now apply exit_status_raised.
Qed.

(** X11.  [main] goes on when nodeinfo is not there: host-meta answered
    with 200 and nodeinfo with 404, the credentials are asked for and
    sent, and when the POST is answered with 200 the account name is
    built. *)
Theorem main_passes_without_nodeinfo (w w1 w4 : world)
    (instance channel_name pword : str) (bs : bytes) (r1 r2 r3 : response) :
  stage_instance w = (Ok instance, w1) ->
  answer w1 (host_meta_request instance) = Answers r1 ->
  status_code r1 = 200%Z ->
  answer (logged (EvHttp (host_meta_request instance)) w1)
    (nodeinfo_request instance) = Answers r2 ->
  status_code r2 = 404%Z ->
  stage_credentials instance
    (logged (EvHttp (nodeinfo_request instance))
       (logged (EvHttp (host_meta_request instance)) w1)) =
    (Ok (channel_name, pword), w4) ->
  utf8_encode (channel_name ++ str_lit ":" ++ pword) = Some bs ->
  answer w4 (usercheck_request instance (str_lit "Basic " ++ b64_text bs)) =
    Answers r3 ->
  status_code r3 = 200%Z ->
  main w =
    (Ok (str_lit "@" ++ channel_name ++ str_lit "@" ++ instance),
     logged (EvHttp (usercheck_request instance
                       (str_lit "Basic " ++ b64_text bs))) w4) /\
  fst (run w) = 0%Z.
Proof.
  intros H1 Ha1 Hs1 Ha2 Hs2 H4 Hbs Ha3 Hs3.
  assert (Hm : main w =
               (Ok (str_lit "@" ++ channel_name ++ str_lit "@" ++ instance),
                logged (EvHttp (usercheck_request instance
                                  (str_lit "Basic " ++ b64_text bs))) w4)).
  { unfold main. rewrite main_with_stages. unfold main_stages.
    rewrite H1, basic_check_run, Ha1, Hs1. cbn [Z.eqb Pos.eqb].
    rewrite check_nodeinfo_run, Ha2. unfold nodeinfo_verdict. rewrite Hs2.
    cbn [Z.eqb Pos.eqb]. rewrite H4, check_usercred_run, Hbs. cbv zeta.
    rewrite Ha3, Hs3. reflexivity. }
  split; [exact Hm|]. unfold run. now rewrite Hm.
Qed.

Lemma main_passes_without_nodeinfo_witness :
  fst (main hub_without_nodeinfo_world) = Ok (str_lit "@alice@example.com") /\
  fst (run hub_without_nodeinfo_world) = 0%Z.
Proof.
  pose proof (main_passes_without_nodeinfo hub_without_nodeinfo_world _ _
                example_com alice secret (list_byte_of_string "alice:secret")
                (Response 200 None) (Response 404 None) (Response 200 None)
                eq_refl eq_refl eq_refl eq_refl eq_refl eq_refl eq_refl
                eq_refl eq_refl) as (H1 & H2).
  split; [now rewrite H1 | exact H2].
Defined.

Lemma to_N_inj (a b : byte) : Byte.to_N a = Byte.to_N b -> a = b.
Proof.
  intros H. apply (f_equal Byte.of_N) in H. rewrite !Byte.of_to_N in H.
  now injection H.
Qed.

Lemma map_to_N_inj (a b : bytes) : map Byte.to_N a = map Byte.to_N b -> a = b.
Proof.
  revert b; induction a as [|x a IH]; intros [|y b] H; try discriminate;
    [reflexivity|].
  cbn [map] in H. injection H as Hx Hr. f_equal; [now apply to_N_inj | now apply IH].
Qed.

Lemma b64encode_inj (a b : bytes) : b64encode a = b64encode b -> a = b.
Proof.
  intros H. apply (f_equal b64decode) in H.
  rewrite !b64decode_b64encode in H. now injection H.
Qed.

Lemma utf8_encode_inj (s t : str) (bs : bytes) :
  utf8_encode s = Some bs -> utf8_encode t = Some bs -> s = t.
Proof.
  intros Hs Ht. apply utf8_decode_encode in Hs, Ht. congruence.
Qed.

(** X12.  The authorization header tells [name + ":" + password]: two
    calls of [check_usercred] that send the same header were given the
    same joined string. *)
Theorem authorization_determines_credentials
    (instance1 instance2 name1 password1 name2 password2 : str)
    (w1 w2 : world) (bs1 bs2 : bytes) :
  utf8_encode (name1 ++ str_lit ":" ++ password1) = Some bs1 ->
  utf8_encode (name2 ++ str_lit ":" ++ password2) = Some bs2 ->
  map rq_headers (sent_by (check_usercred instance1 name1 password1) w1) =
  map rq_headers (sent_by (check_usercred instance2 name2 password2) w2) ->
  name1 ++ str_lit ":" ++ password1 = name2 ++ str_lit ":" ++ password2.
Proof.
  intros H1 H2.
  rewrite (sent_by_check_usercred instance1 _ _ w1 bs1 H1),
          (sent_by_check_usercred instance2 _ _ w2 bs2 H2).
  cbn [map usercheck_request rq_headers]. intros H.
  assert (Ht : b64_text bs1 = b64_text bs2)
    by (apply (app_inv_head (str_lit "Basic ")); congruence).
  apply map_to_N_inj, b64encode_inj in Ht. subst bs2.
  exact (utf8_encode_inj _ _ _ H1 H2).
Qed.

Lemma authorization_determines_credentials_witness :
  str_lit "alice" ++ str_lit ":" ++ str_lit "secret" =
  str_lit "alice" ++ str_lit ":" ++ str_lit "secret".
Proof.
  exact (authorization_determines_credentials example_com (str_lit "hub.example.org")
           alice secret alice secret (idle hub) (idle unreachable)
           (list_byte_of_string "alice:secret") (list_byte_of_string "alice:secret")
           eq_refl eq_refl eq_refl).
Defined.

(** X13.  It does not tell the name from the password: a colon may stand
    in either, and [check_usercred] does the same on [(a:b, c)] and on
    [(a, b:c)]. *)
Theorem colon_in_channel_name_is_ambiguous (instance a b c : str) (w : world) :
  check_usercred instance (a ++ str_lit ":" ++ b) c w =
  check_usercred instance a (b ++ str_lit ":" ++ c) w.
Proof.
  rewrite !check_usercred_run.
  now replace ((a ++ str_lit ":" ++ b) ++ str_lit ":" ++ c)
    with (a ++ str_lit ":" ++ b ++ str_lit ":" ++ c)
    by (now rewrite <- !app_assoc).
Qed.

Lemma b64encode_length (bs : bytes) :
  List.length (b64encode bs) = 4 * ((List.length bs + 2) / 3).
Proof.
  induction bs as [| a | a b | a b c rest IH] using bytes_ind3;
    try reflexivity.
  cbn [b64encode List.length]. rewrite IH.
  replace (S (S (S (List.length rest))) + 2) with ((List.length rest + 2) + 1 * 3) by lia.
  rewrite Nat.div_add by lia. lia.
Qed.

(** X14.  The authorization value is ASCII whatever the credentials, and
    its length is 6 plus four characters for every three bytes, begun or
    full, of the UTF-8 form. *)
Theorem authorization_is_ascii (instance channel_name password : str)
    (w : world) (bs : bytes) (rq : request) (value : str) :
  utf8_encode (channel_name ++ str_lit ":" ++ password) = Some bs ->
  In rq (sent_by (check_usercred instance channel_name password) w) ->
  In (str_lit "authorization", value) (rq_headers rq) ->
  Forall (fun c => (c < 0x80)%N) value /\
  List.length value = 6 + 4 * ((List.length bs + 2) / 3).
Proof.
  intros Hbs. rewrite (sent_by_check_usercred instance _ _ w bs Hbs).
  intros [<-|[]]. cbn [usercheck_request rq_headers In].
  intros [H|[]]. injection H as <-. split.
  - repeat (constructor; [reflexivity|]).
    unfold b64_text. apply Forall_map. exact (b64encode_ascii bs).
  - cbn [List.length]. unfold b64_text.
    rewrite length_map, b64encode_length. reflexivity.
Qed.

Lemma authorization_is_ascii_witness :
  Forall (fun c => (c < 0x80)%N) (str_lit "Basic YWxpY2U6c2VjcmV0") /\
  List.length (str_lit "Basic YWxpY2U6c2VjcmV0") = 6 + 4 * ((12 + 2) / 3).
Proof.
  exact (authorization_is_ascii example_com alice secret (idle hub)
           (list_byte_of_string "alice:secret") alice_request
           (str_lit "Basic YWxpY2U6c2VjcmV0") eq_refl
           (or_introl eq_refl) (or_introl eq_refl)).
Defined.

Lemma utf8_encode_cp_none (c : codepoint) :
  utf8_encode_cp c = None <->
  ((0xD800 <= c < 0xE000) \/ 0x110000 <= c)%N.
Proof.
  unfold utf8_encode_cp.
  destruct (N.ltb_spec c 0x80); [split; [discriminate | lia]|].
  destruct (N.ltb_spec c 0x800); [split; [discriminate | lia]|].
  destruct (N.ltb_spec c 0x10000).
  - destruct ((0xD800 <=? c) && (c <? 0xE000))%N eqn:Hs.
    + apply andb_true_iff in Hs as [Hl Hu].
      apply N.leb_le in Hl. apply N.ltb_lt in Hu.
      split; [intros _; left; lia | reflexivity].
    + split; [discriminate|]. intros [Hb|Hb]; [|lia].
      apply andb_false_iff in Hs as [Hs|Hs];
        [apply N.leb_gt in Hs | apply N.ltb_ge in Hs]; lia.
  - destruct (N.ltb_spec c 0x110000).
    + split; [discriminate | lia].
    + split; [intros _; right; lia | reflexivity].
Qed.

Lemma utf8_encode_none (s : str) :
  utf8_encode s = None <->
  exists c, In c s /\ ((0xD800 <= c < 0xE000) \/ 0x110000 <= c)%N.
Proof.
  induction s as [|c s IH]; cbn [utf8_encode].
  - split; [discriminate | intros (c & [] & _)].
  - destruct (utf8_encode_cp c) as [b|] eqn:Ec.
    + destruct (utf8_encode s) as [bs|].
      * split; [discriminate|]. intros (d & [<-|Hd] & Hbad).
        -- apply utf8_encode_cp_none in Hbad. congruence.
        -- assert (H : Some bs = None) by (apply IH; now exists d).
           discriminate H.
      * split; [|reflexivity]. intros _.
        destruct (proj1 IH eq_refl) as (d & Hd & Hbad). exists d. split; [now right | exact Hbad].
    + split; [|reflexivity]. intros _. exists c. split; [now left|].
      now apply utf8_encode_cp_none.
Qed.

(** X15.  [check_usercred] raises [UnicodeEncodeError], before any
    request, exactly when the channel name or the password holds a
    surrogate code point. *)
Theorem check_usercred_encoding_error (instance channel_name password : str)
    (w : world) :
  Forall (fun c => (c < 0x110000)%N) (channel_name ++ str_lit ":" ++ password) ->
  (check_usercred instance channel_name password w = (Exc UnicodeEncodeError, w)
   <->
   exists c, In c (channel_name ++ password) /\ (0xD800 <= c < 0xE000)%N).
Proof.
  intros Hv. rewrite Forall_forall in Hv. rewrite check_usercred_run. split.
  - destruct (utf8_encode _) as [bs|] eqn:E.
    + cbv zeta. destruct (answer w _); discriminate.
    + intros _. apply utf8_encode_none in E as (c & Hc & [Hs|Hbig]).
      * exists c. split; [|exact Hs].
        apply in_app_or in Hc as [Hc|Hc]; [apply in_or_app; now left|].
        change (str_lit ":") with [58%N] in Hc.
        destruct Hc as [<-|Hc]; [lia|].
        apply in_or_app; now right.
      * specialize (Hv c Hc). lia.
  - intros (c & Hc & Hs).
    assert (E : utf8_encode (channel_name ++ str_lit ":" ++ password) = None).
    { apply utf8_encode_none. exists c. split; [|now left].
      apply in_app_or in Hc as [Hc|Hc]; apply in_or_app; [now left|].
      right. now right. }
    now rewrite E.
Qed.

Lemma check_usercred_encoding_error_witness :
  check_usercred example_com [0xDC80%N] secret (idle hub) =
    (Exc UnicodeEncodeError, idle hub).
Proof.
  refine (proj2 (check_usercred_encoding_error example_com [0xDC80%N] secret
                   (idle hub) _) _).
  - repeat constructor.
  - exists 0xDC80%N. split; [now left | split; [discriminate | reflexivity]].
Defined.

Lemma spec_cut_path_prefix (s : str) :
  exists post, s = spec_cut_path s ++ post.
Proof.
  induction s as [|c s (post & IH)]; cbn [spec_cut_path]; [now exists []|].
  destruct (N.eqb c (chr "/")); [now exists (c :: s)|].
  exists post. cbn [app]. now rewrite <- IH.
Qed.

Lemma spec_strip_scheme_suffix (s : str) :
  exists pre, s = pre ++ spec_strip_scheme s.
Proof.
  unfold spec_strip_scheme.
  destruct (starts_with _ s);
    [exists (firstn 8 s); now rewrite firstn_skipn|].
  destruct (starts_with _ s);
    [exists (firstn 7 s); now rewrite firstn_skipn | now exists []].
Qed.

(** X16.  The sanitized domain of an entered line holds no [/] (and no
    line feed), and it is a part of the line as entered: nothing is added
    or changed, a front and a back are cut away. *)
Theorem sanitized_domain_shape (prompt : str) (w w' : world) (entered : str) :
  input prompt w = (Ok entered, w') ->
  ~ In (chr "/") (sanitize_instance entered) /\
  ~ In LF (sanitize_instance entered) /\
  exists pre post, entered = pre ++ sanitize_instance entered ++ post.
Proof.
  intros H. apply input_line in H.
  rewrite (sanitize_instance_line entered H).
  split; [apply spec_cut_path_no_slash|]. split.
  - intros Hl. apply H. now apply spec_strip_scheme_sub, spec_cut_path_sub.
  - destruct (spec_strip_scheme_suffix entered) as (pre & Hpre).
    destruct (spec_cut_path_prefix (spec_strip_scheme entered)) as (post & Hpost).
    exists pre, post. now rewrite <- Hpost.
Qed.

Lemma sanitized_domain_shape_witness :
  ~ In (chr "/") (str_lit "example.com") /\
  ~ In LF (str_lit "example.com") /\
  exists pre post,
    str_lit "https://example.com/foo/bar" = pre ++ str_lit "example.com" ++ post.
Proof.
  exact (sanitized_domain_shape instance_prompt example_world _
           (str_lit "https://example.com/foo/bar") eq_refl).
Defined.


